(** * TodoMasterApp: the smart-sort scorer and the filter/sort engine

    A shallow embedding of [src/utils/sortAlgorithm.ts] together with the
    [Task], [TaskFilter] and [SortOrder] types of [types/index.ts], and of
    the code around it: the task service ([services/taskService.ts]), the
    task slice of the store ([store/tasksSlice.ts]), the statistics of
    the home screen and the deadline colour of [utils/dateUtils.ts].

    Conventions of the embedding.
    - An ISO date-time string is represented by the instant it parses to,
      an integer count of milliseconds since the epoch (the value of
      [new Date(iso).getTime()]); strings that do not parse are outside
      the model.
    - The arithmetic of the scorer goes through [Math.exp]; it is carried
      out over the real numbers.  The value that leaves the scorer has
      been through [toFixed(4)] and [parseFloat] and is a decimal with
      four fraction digits, a rational.  The cached [sortScore] of a task
      and the results of comparators are rationals as well.
    - Text is a [string] holding the UTF-8 encoding of the text; on
      well-formed text, equality, emptiness and substring search on the
      encoding are those of JavaScript.  The methods [toLowerCase] and
      [trim] of the host are parameters of the engine, as is
      [localeCompare]; their restrictions to ASCII text are defined as an
      instance, for the examples and for the statements about ASCII
      text.
    - The completion rate of the statistics goes through a division of
      two counts; it is computed on binary64 numbers, with the primitive
      floating-point operations.
    - [differenceInHours] is the function of the date-fns package: the
      difference in milliseconds divided by 3600000 and truncated towards
      zero.
    - [Array.prototype.sort] is stable; for the comparators of this file
      its result is modelled by a stable insertion sort. *)

From Stdlib Require Import ZArith QArith Qabs Reals Zfloor Psatz Bool.
From Stdlib Require Import String Ascii List Permutation Sorted.
From Stdlib Require Import PrimFloat SpecFloat FloatOps Uint63.
From stdpp Require Import base option list gmap strings.

Import ListNotations.
Local Open Scope string_scope.
Local Open Scope Z_scope.

(** ** Data model ([types/index.ts]) *)

Inductive Priority : Set := low | medium | high | critical.

(** The string a priority level is at run time. *)
Definition Priority_str (p : Priority) : string :=
  match p with
  | low => "low"
  | medium => "medium"
  | high => "high"
  | critical => "critical"
  end.

Record Task : Type := mkTask {
  task_id : string;
  userId : string;
  title : string;
  description : string;
  dateTime : Z;
  deadline : Z;
  priority : Priority;
  category : string;
  tags : list string;
  completed : bool;
  createdAt : Z;
  updatedAt : Z;
  sortScore : option Q
}.

Inductive Status : Set := status_all | status_active | status_completed.

(** The [filter] argument of [sortAndFilterTasks]; [priority] and
    [category] are plain strings there, with ["all"] for no restriction. *)
Record TaskFilter : Type := mkFilter {
  status : Status;
  f_priority : string;
  f_category : string;
  searchQuery : string;
  tag : option string
}.

Inductive SortOrder : Set :=
  order_smart | order_deadline | order_priority | order_createdAt | order_alpha.

(** ** Urgency scorer *)

Definition PRIORITY_WEIGHTS (p : Priority) : Z :=
  match p with
  | critical => 4
  | high => 3
  | medium => 2
  | low => 1
  end.

Definition MILLISECONDS_IN_HOUR : Z := 3600000.

(** date-fns [differenceInHours(dateLeft, dateRight)]. *)
Definition differenceInHours (dateLeft dateRight : Z) : Z :=
  Z.quot (dateLeft - dateRight) MILLISECONDS_IN_HOUR.

(** [deadlineUrgency(deadlineISO)]; [now] is the reading of the clock
    taken by [new Date()] on entry. *)
Definition deadlineUrgency (now deadlineISO : Z) : R :=
  let hoursLeft := differenceInHours deadlineISO now in
  if hoursLeft <=? 0 then 1%R
  else
    let k := 0.007%R in
    exp (- k * IZR hoursLeft).

(** [ageBoost(createdAtISO)], with its own reading of the clock. *)
Definition ageBoost (now createdAtISO : Z) : R :=
  let ageHours := differenceInHours now createdAtISO in
  let maxAgeHours := 30 * 24 in
  Rmin (IZR ageHours / IZR maxAgeHours) 1.0.

(** [x.toFixed(4)]: the numeral with four fraction digits nearest to [x],
    a tie going to the larger magnitude; the sign is split off first, as
    in the language definition.  The numeral is represented by the
    integer it denotes in ten-thousandths. *)
Definition toFixed4 (x : R) : Z :=
  if Rlt_dec x 0 then - Zfloor (- x * 10000 + / 2)
  else Zfloor (x * 10000 + / 2).

(** [parseFloat] of a numeral produced by [toFixed4]. *)
Definition parseFloat4 (n : Z) : Q := n # 10000.

(** [calculateSmartScore(task)].  The two helpers read the clock one
    after the other; [nowD] is the reading of [deadlineUrgency] and
    [nowA] the reading of [ageBoost]. *)
Definition calculateSmartScore (nowD nowA : Z) (task : Task) : Q :=
  if completed task then (-1)%Q
  else
    let priorityNorm := (IZR (PRIORITY_WEIGHTS (priority task)) / 4)%R in
    let dlUrgency := deadlineUrgency nowD (deadline task) in
    let age := ageBoost nowA (createdAt task) in
    let raw := (priorityNorm * 0.40 + dlUrgency * 0.40 + age * 0.20)%R in
    parseFloat4 (toFixed4 (raw * 10)).

(** ** String and array methods used by the engine *)

(** A string is truthy when it is not empty. *)
Definition truthy (s : string) : bool :=
  match s with
  | EmptyString => false
  | String _ _ => true
  end.

(** [s.includes(q)]: [q] occurs in [s] as a substring. *)
Fixpoint includes (s q : string) : bool :=
  String.prefix q s ||
  match s with
  | EmptyString => false
  | String _ s' => includes s' q
  end.

(** [arr.includes(x)] on an array of strings. *)
Definition Array_includes (arr : list string) (x : string) : bool :=
  existsb (String.eqb x) arr.

(** [arr.some(p)] *)
Definition Array_some {A : Type} (p : A -> bool) (arr : list A) : bool :=
  existsb p arr.

(** [x ?? d] *)
Definition nullish {A : Type} (x : option A) (d : A) : A :=
  match x with
  | Some v => v
  | None => d
  end.

(** [arr.sort(compareFn)], on the contents of the array.  [x] precedes
    every element of [l] in the input and stays in front of [y] unless
    [compareFn x y] is positive. *)
Fixpoint sort_insert {A : Type} (compareFn : A -> A -> Q) (x : A) (l : list A)
  : list A :=
  match l with
  | [] => [x]
  | y :: l' =>
      if Qle_bool (compareFn x y) 0 then x :: l
      else y :: sort_insert compareFn x l'
  end.

Definition Array_sort {A : Type} (compareFn : A -> A -> Q) (l : list A)
  : list A :=
  fold_right (sort_insert compareFn) [] l.

(** ** Filter/sort engine *)

Section Engine.

(** [a.localeCompare(b)] of the host: negative, zero or positive. *)
Variable localeCompare : string -> string -> Z.

(** [s.toLowerCase()] and [s.trim()] of the host. *)
Variable toLowerCase : string -> string.
Variable trim : string -> string.

(** [getComparator(order)] *)
Definition getComparator (order : SortOrder) (a b : Task) : Q :=
  if negb (Bool.eqb (completed a) (completed b)) then
    (if completed a then 1 else -1)%Q
  else
    match order with
    | order_smart => (nullish (sortScore b) 0 - nullish (sortScore a) 0)%Q
    | order_deadline => inject_Z (deadline a - deadline b)
    | order_priority =>
        let diff := PRIORITY_WEIGHTS (priority b) - PRIORITY_WEIGHTS (priority a) in
        if negb (diff =? 0) then inject_Z diff
        else inject_Z (deadline a - deadline b)
    | order_createdAt => inject_Z (createdAt b - createdAt a)
    | order_alpha => inject_Z (localeCompare (title a) (title b))
    end.

(** [sortAndFilterTasks(tasks, filter, order)], as a function from the
    contents of [tasks] to the contents of the returned array. *)
Definition sortAndFilterTasks (tasks : list Task) (filter : TaskFilter)
    (order : SortOrder) : list Task :=
  let result := tasks in
  (* 1. Status filter *)
  let result :=
    match status filter with
    | status_active => List.filter (fun t => negb (completed t)) result
    | status_completed => List.filter (fun t => completed t) result
    | status_all => result
    end in
  (* 2. Priority filter *)
  let result :=
    if negb (String.eqb (f_priority filter) "all") then
      List.filter
        (fun t => String.eqb (Priority_str (priority t)) (f_priority filter))
        result
    else result in
  (* 3. Category filter *)
  let result :=
    if negb (String.eqb (f_category filter) "all") then
      List.filter (fun t => String.eqb (category t) (f_category filter)) result
    else result in
  (* 4. Tag filter *)
  let result :=
    if match tag filter with Some tg => truthy tg | None => false end then
      List.filter (fun t => Array_includes (tags t) (nullish (tag filter) ""))
        result
    else result in
  (* 5. Text search *)
  let result :=
    if truthy (trim (searchQuery filter)) then
      let q := trim (toLowerCase (searchQuery filter)) in
      List.filter
        (fun t =>
           includes (toLowerCase (title t)) q ||
           includes (toLowerCase (description t)) q ||
           Array_some (fun tg => includes (toLowerCase tg) q) (tags t))
        result
    else result in
  (* 6. Sort *)
  Array_sort (getComparator order) result.

(** *** The same function with the arrays it allocates and updates

    An array is a location of a store; [[...tasks]] and [filter] allocate
    a new array, [sort] rewrites the array it is called on.  Task records
    are read and never assigned to, so an array holds them by value. *)

Definition loc : Type := positive.

Definition St (A : Type) : Type := gmap loc (list Task) -> A * gmap loc (list Task).

Definition ret {A : Type} (a : A) : St A := fun s => (a, s).

Definition bind {A B : Type} (m : St A) (k : A -> St B) : St B :=
  fun s => let '(a, s') := m s in k a s'.

Notation "x <- m ;; k" := (bind m (fun x => k))
  (at level 100, m at next level, right associativity).

Definition new_array (l : list Task) : St loc :=
  fun s => let r := fresh (dom s) in (r, <[r := l]> s).

Definition read_array (r : loc) : St (list Task) :=
  fun s => (nullish (s !! r) [], s).

Definition write_array (r : loc) (l : list Task) : St unit :=
  fun s => (tt, <[r := l]> s).

(** [[...arr]] *)
Definition Array_spread (arr : loc) : St loc :=
  l <- read_array arr ;; new_array l.

(** [arr.filter(p)] *)
Definition Array_filter_new (p : Task -> bool) (arr : loc) : St loc :=
  l <- read_array arr ;; new_array (List.filter p l).

(** [arr.sort(compareFn)]: in place, returning [arr] itself. *)
Definition Array_sort_in_place (compareFn : Task -> Task -> Q) (arr : loc)
  : St loc :=
  l <- read_array arr ;;
  _ <- write_array arr (Array_sort compareFn l) ;;
  ret arr.

Definition sortAndFilterTasks_st (tasks : loc) (filter : TaskFilter)
    (order : SortOrder) : St loc :=
  result <- Array_spread tasks ;;
  result <-
    match status filter with
    | status_active => Array_filter_new (fun t => negb (completed t)) result
    | status_completed => Array_filter_new (fun t => completed t) result
    | status_all => ret result
    end ;;
  result <-
    (if negb (String.eqb (f_priority filter) "all") then
       Array_filter_new
         (fun t => String.eqb (Priority_str (priority t)) (f_priority filter))
         result
     else ret result) ;;
  result <-
    (if negb (String.eqb (f_category filter) "all") then
       Array_filter_new
         (fun t => String.eqb (category t) (f_category filter)) result
     else ret result) ;;
  result <-
    (if match tag filter with Some tg => truthy tg | None => false end then
       Array_filter_new
         (fun t => Array_includes (tags t) (nullish (tag filter) "")) result
     else ret result) ;;
  result <-
    (if truthy (trim (searchQuery filter)) then
       let q := trim (toLowerCase (searchQuery filter)) in
       Array_filter_new
         (fun t =>
            includes (toLowerCase (title t)) q ||
            includes (toLowerCase (description t)) q ||
            Array_some (fun tg => includes (toLowerCase tg) q) (tags t))
         result
     else ret result) ;;
  Array_sort_in_place (getComparator order) result.

End Engine.

(** ** The text methods of the host on ASCII text

    [asciiToLowerCase] and [asciiTrim] are what [toLowerCase] and [trim]
    do on text whose characters are all ASCII.  They are an instance of
    the parameters of the engine, not a model of the methods on other
    text. *)

Definition lower_ascii (c : ascii) : ascii :=
  let n := nat_of_ascii c in
  if ((65 <=? n) && (n <=? 90))%nat then ascii_of_nat (n + 32) else c.

Fixpoint asciiToLowerCase (s : string) : string :=
  match s with
  | EmptyString => EmptyString
  | String c s' => String (lower_ascii c) (asciiToLowerCase s')
  end.

(** The ASCII white space characters: tab, line feed, vertical tab, form
    feed, carriage return, space. *)
Definition isWhiteSpace (c : ascii) : bool :=
  let n := nat_of_ascii c in
  ((9 <=? n) && (n <=? 13) || (n =? 32))%nat.

Fixpoint trimStart (s : string) : string :=
  match s with
  | EmptyString => EmptyString
  | String c s' => if isWhiteSpace c then trimStart s' else s
  end.

Fixpoint trimEnd (s : string) : string :=
  match s with
  | EmptyString => EmptyString
  | String c s' =>
      match trimEnd s' with
      | EmptyString => if isWhiteSpace c then EmptyString else String c EmptyString
      | r => String c r
      end
  end.

Definition asciiTrim (s : string) : string := trimEnd (trimStart s).

(** Every character of [s] is an ASCII character. *)
Fixpoint isAscii (s : string) : bool :=
  match s with
  | EmptyString => true
  | String c s' => (nat_of_ascii c <? 128)%nat && isAscii s'
  end.

(** The host's methods do on ASCII text what the ASCII instance does. *)
Definition agreesOnAscii (toLowerCase trim : string -> string) : Prop :=
  (forall s, isAscii s = true -> toLowerCase s = asciiToLowerCase s) /\
  (forall s, isAscii s = true -> trim s = asciiTrim s).

(** ** The filter criteria as the specification words them

    Each restriction is a proposition about one task; [satisfiesAll] is
    their conjunction.  The engine is compared with it below. *)

(** [q] occurs in [s] as a substring. *)
Definition occursIn (q s : string) : Prop :=
  exists pre post : string, s = String.append pre (String.append q post).

Definition statusRestriction (f : TaskFilter) (t : Task) : Prop :=
  match status f with
  | status_all => True
  | status_active => completed t = false
  | status_completed => completed t = true
  end.

Definition priorityRestriction (f : TaskFilter) (t : Task) : Prop :=
  f_priority f = "all" \/ Priority_str (priority t) = f_priority f.

Definition categoryRestriction (f : TaskFilter) (t : Task) : Prop :=
  f_category f = "all" \/ category t = f_category f.

(** A tag is specified when it is present and not the empty string. *)
Definition tagRestriction (f : TaskFilter) (t : Task) : Prop :=
  forall tg : string, tag f = Some tg -> tg <> "" -> In tg (tags t).

(** The search: the lower-cased, trimmed query, when the trimmed query is
    not empty, occurs in the lower-cased title, description or some
    lower-cased tag.  Lower-casing and trimming are the host's. *)
Definition searchRestriction (toLowerCase trim : string -> string)
    (f : TaskFilter) (t : Task) : Prop :=
  let q := trim (toLowerCase (searchQuery f)) in
  trim (searchQuery f) <> "" ->
  occursIn q (toLowerCase (title t)) \/
  occursIn q (toLowerCase (description t)) \/
  exists tg : string, In tg (tags t) /\ occursIn q (toLowerCase tg).

Definition satisfiesAll (toLowerCase trim : string -> string)
    (f : TaskFilter) (t : Task) : Prop :=
  statusRestriction f t /\ priorityRestriction f t /\ categoryRestriction f t /\
  tagRestriction f t /\ searchRestriction toLowerCase trim f t.

(** *** The search on ASCII text, worded without the text methods

    Two characters are the same up to case when they are equal or one is
    an upper-case letter A-Z and the other the lower-case letter 32
    codes above it. *)
Definition eqIgnoreCase (c d : ascii) : Prop :=
  let m := nat_of_ascii c in
  let n := nat_of_ascii d in
  (m = n \/ (65 <= m <= 90 /\ n = m + 32) \/ (65 <= n <= 90 /\ m = n + 32))%nat.

Fixpoint sameIgnoringCase (s1 s2 : string) : Prop :=
  match s1, s2 with
  | EmptyString, EmptyString => True
  | String c s1', String d s2' => eqIgnoreCase c d /\ sameIgnoringCase s1' s2'
  | _, _ => False
  end.

(** Some substring of [s] is [q] up to case. *)
Definition occursIgnoringCase (q s : string) : Prop :=
  exists pre mid post : string,
    s = String.append pre (String.append mid post) /\ sameIgnoringCase mid q.

(** Every character of [s] is white space. *)
Fixpoint allWhiteSpace (s : string) : bool :=
  match s with
  | EmptyString => true
  | String c s' => isWhiteSpace c && allWhiteSpace s'
  end.

(** [s] does not begin with white space. *)
Definition startsClean (s : string) : Prop :=
  match s with
  | EmptyString => True
  | String c _ => isWhiteSpace c = false
  end.

(** [s] does not end with white space. *)
Fixpoint endsClean (s : string) : Prop :=
  match s with
  | EmptyString => True
  | String c EmptyString => isWhiteSpace c = false
  | String _ s' => endsClean s'
  end.

(** [q'] is [q] without the white space at its two ends. *)
Definition trimmedOf (q q' : string) : Prop :=
  exists l r : string,
    q = String.append l (String.append q' r) /\
    allWhiteSpace l = true /\ allWhiteSpace r = true /\
    startsClean q' /\ endsClean q'.

(** The search: the query without the white space at its ends, when that
    is not empty, occurs up to case in the title, the description or
    some tag. *)
Definition searchRestrictionPlain (f : TaskFilter) (t : Task) : Prop :=
  forall q' : string,
    trimmedOf (searchQuery f) q' -> q' <> "" ->
    occursIgnoringCase q' (title t) \/
    occursIgnoringCase q' (description t) \/
    exists tg : string, In tg (tags t) /\ occursIgnoringCase q' tg.

Definition satisfiesAllPlain (f : TaskFilter) (t : Task) : Prop :=
  statusRestriction f t /\ priorityRestriction f t /\ categoryRestriction f t /\
  tagRestriction f t /\ searchRestrictionPlain f t.

(** The title, the description and the tags of [t] are ASCII text. *)
Definition asciiTask (t : Task) : bool :=
  isAscii (title t) && isAscii (description t) && forallb isAscii (tags t).

(** ** Fixtures *)

(** A collation for the examples: comparison of character codes. *)
Definition ordinalCompare (a b : string) : Z :=
  match String.compare a b with
  | Lt => -1
  | Eq => 0
  | Gt => 1
  end.

Definition noFilter : TaskFilter :=
  {| status := status_all; f_priority := "all"; f_category := "all";
     searchQuery := ""; tag := None |}.

Definition sample (ident name : string) (p : Priority) (done : bool)
    (due : Z) (score : option Q) : Task :=
  {| task_id := ident; userId := "u1"; title := name; description := "";
     dateTime := 0; deadline := due; priority := p; category := "work";
     tags := ["urgent"]; completed := done; createdAt := 0; updatedAt := 0;
     sortScore := score |}.

Definition doneTask : Task := sample "1" "Archive mail" low true 100 (Some (-1)%Q).
Definition unscored : Task := sample "2" "Call bank" medium false 200 None.
Definition scoredHigh : Task := sample "3" "Write report" high false 300 (Some 7.5%Q).
Definition scoredBelow : Task := sample "4" "Renew pass" low false 400 (Some (-2)%Q).

Definition sampleTasks : list Task := [doneTask; unscored; scoredBelow; scoredHigh].

(** A task of low priority, due at the clock reading, whose creation
    instant is 7200 hours after the clock reading. *)
Definition createdAhead (now : Z) : Task :=
  {| task_id := "t1"; userId := "u1"; title := "Pay rent"; description := "";
     dateTime := now; deadline := now; priority := low; category := "finance";
     tags := []; completed := false;
     createdAt := now + 7200 * MILLISECONDS_IN_HOUR;
     updatedAt := now + 7200 * MILLISECONDS_IN_HOUR; sortScore := None |}.

(** Scenario A: critical priority, deadline and creation one hour before
    the clock reading, not completed. *)
Definition scenarioA (now : Z) : Task :=
  {| task_id := "a"; userId := "u1"; title := "Submit report";
     description := ""; dateTime := now - MILLISECONDS_IN_HOUR;
     deadline := now - MILLISECONDS_IN_HOUR; priority := critical;
     category := "work"; tags := []; completed := false;
     createdAt := now - MILLISECONDS_IN_HOUR;
     updatedAt := now - MILLISECONDS_IN_HOUR; sortScore := None |}.

(** A task due [h] hours and [ms] milliseconds after the instant [now]. *)
Definition dueIn (now h ms : Z) : Task :=
  {| task_id := "d"; userId := "u1"; title := "Book flights";
     description := "window seat"; dateTime := now;
     deadline := now + h * MILLISECONDS_IN_HOUR + ms; priority := high;
     category := "travel"; tags := ["trip"]; completed := false;
     createdAt := now - 48 * MILLISECONDS_IN_HOUR;
     updatedAt := now; sortScore := None |}.

(** ** Relations used in the statements *)

(** [a] completed only if [b] is: [a] may stand before [b] in a sequence
    whose completed tasks come last. *)
Definition sinks (a b : Task) : Prop := completed a = true -> completed b = true.

(** [res] is an array that did not exist in [s]; in [s'] it holds [l],
    and every array of [s] holds in [s'] what it held in [s]. *)
Definition freshResult (s : gmap loc (list Task)) (res : loc) (l : list Task)
    (s' : gmap loc (list Task)) : Prop :=
  (res ∉ dom s) /\ s' !! res = Some l /\
  (forall r : loc, r ∈ dom s -> s' !! r = s !! r).

(** [a] may stand before [b] under the smart order. *)
Definition smartLe (lc : string -> string -> Z) (a b : Task) : Prop :=
  Qle_bool (getComparator lc order_smart a b) 0 = true.

(** A fixture for the composition of the five filters: eleven tasks, some
    of which satisfy only part of the restrictions of [compositeFilter]. *)
Definition item (ident name descr : string) (p : Priority) (cat : string)
    (tgs : list string) (done : bool) (due : Z) : Task :=
  {| task_id := ident; userId := "u1"; title := name; description := descr;
     dateTime := 0; deadline := due; priority := p; category := cat;
     tags := tgs; completed := done; createdAt := 0; updatedAt := 0;
     sortScore := None |}.

Definition viaDescription : Task :=
  item "6" "Budget" "final REPORT draft" high "work" ["urgent"] false 600.

Definition compositeTasks : list Task :=
  [ item "1" "Quarterly Report" "" high "work" ["urgent"] false 900;
    item "2" "Quarterly Report" "" high "work" ["urgent"] true 200;
    item "3" "Quarterly Report" "" medium "work" ["urgent"] false 300;
    item "4" "Quarterly Report" "" high "personal" ["urgent"] false 400;
    item "5" "Quarterly Report" "" high "work" ["later"] false 500;
    viaDescription;
    item "7" "Sync" "" high "work" ["urgent"; "reporting"] false 700;
    item "8" "Repo cleanup" "port the scripts" high "work" ["urgent"] false 800;
    item "9" "Quarterly Report" "" high "work" ["Urgent"] false 100;
    item "10" "Groceries" "" low "shopping" [] true 1000;
    item "11" "weekly report" "" high "work" ["team"; "urgent"] false 50 ].

Definition compositeFilter : TaskFilter :=
  {| status := status_active; f_priority := "high"; f_category := "work";
     searchQuery := "  RePort "; tag := Some "urgent" |}.

(** ** Deadline flags ([sortAlgorithm.ts], [dateUtils.ts]) *)

(** date-fns [isPast(date)]: the instant is before the clock reading. *)
Definition isPast (now date : Z) : bool := date <? now.

(** [isOverdue(task)] *)
Definition isOverdue (now : Z) (task : Task) : bool :=
  negb (completed task) && isPast now (deadline task).

(** [isDueSoon(task, withinHours)]; the default of [withinHours] is 24. *)
Definition isDueSoon (now : Z) (task : Task) (withinHours : Z) : bool :=
  if completed task then false
  else
    let hoursLeft := differenceInHours (deadline task) now in
    (0 <=? hoursLeft) && (hoursLeft <=? withinHours).

(** [getDeadlineColor(iso, completed)]; [iso] is [None] when the string
    does not parse to a valid date. *)
Definition getDeadlineColor (now : Z) (iso : option Z) (completed : bool)
  : string :=
  if completed then "#10B981"
  else
    match iso with
    | None => "#9CA3AF"
    | Some d =>
        let hours := differenceInHours d now in
        if hours <? 0 then "#EF4444"
        else if hours <? 3 then "#FF3366"
        else if hours <? 24 then "#F59E0B"
        else "#9CA3AF"
    end.

(** [a] may stand before [b] under the comparator of [order]: the
    comparator does not return a positive number. *)
Definition comparatorLe (lc : string -> string -> Z) (order : SortOrder)
    (a b : Task) : Prop :=
  Qle_bool (getComparator lc order a b) 0 = true.

(** ** Task service ([services/taskService.ts])

    The service keeps all tasks as one JSON array under the key
    [STORAGE_KEYS.TASKS].  The stored value is represented by the array
    it parses to, [None] when the key is absent or its text does not
    parse ([getItem] returns [null] in both cases).  [setItem] catches a
    failing write and logs it; [ok] tells whether the write of a call
    goes through.  A thrown [Error] is the [Err] of its message. *)

Inductive Result (A : Type) : Type :=
| Ok (value : A)
| Err (message : string).

Arguments Ok {A} value.
Arguments Err {A} message.

(** [Omit<Task, 'id' | 'createdAt' | 'updatedAt' | 'sortScore'>] *)
Record TaskData : Type := mkTaskData {
  d_userId : string;
  d_title : string;
  d_description : string;
  d_dateTime : Z;
  d_deadline : Z;
  d_priority : Priority;
  d_category : string;
  d_tags : list string;
  d_completed : bool
}.

(** [Partial<Task>]: a field is [None] when the object does not have it.
    [sortScore] may be present with the value [undefined]. *)
Record TaskPatch : Type := mkTaskPatch {
  u_id : option string;
  u_userId : option string;
  u_title : option string;
  u_description : option string;
  u_dateTime : option Z;
  u_deadline : option Z;
  u_priority : option Priority;
  u_category : option string;
  u_tags : option (list string);
  u_completed : option bool;
  u_createdAt : option Z;
  u_updatedAt : option Z;
  u_sortScore : option (option Q)
}.

Definition emptyPatch : TaskPatch :=
  {| u_id := None; u_userId := None; u_title := None; u_description := None;
     u_dateTime := None; u_deadline := None; u_priority := None;
     u_category := None; u_tags := None; u_completed := None;
     u_createdAt := None; u_updatedAt := None; u_sortScore := None |}.

(** [{ ...task, ...updates }] *)
Definition spreadPatch (task : Task) (updates : TaskPatch) : Task :=
  {| task_id := nullish (u_id updates) (task_id task);
     userId := nullish (u_userId updates) (userId task);
     title := nullish (u_title updates) (title task);
     description := nullish (u_description updates) (description task);
     dateTime := nullish (u_dateTime updates) (dateTime task);
     deadline := nullish (u_deadline updates) (deadline task);
     priority := nullish (u_priority updates) (priority task);
     category := nullish (u_category updates) (category task);
     tags := nullish (u_tags updates) (tags task);
     completed := nullish (u_completed updates) (completed task);
     createdAt := nullish (u_createdAt updates) (createdAt task);
     updatedAt := nullish (u_updatedAt updates) (updatedAt task);
     sortScore := nullish (u_sortScore updates) (sortScore task) |}.

(** [arr.find(p)] *)
Definition Array_find {A : Type} (p : A -> bool) (arr : list A) : option A :=
  List.find p arr.

(** [arr.findIndex(p)]: the first index whose element satisfies [p], or
    -1. *)
Fixpoint Array_findIndex {A : Type} (p : A -> bool) (arr : list A) : Z :=
  match arr with
  | [] => -1
  | x :: arr' =>
      if p x then 0
      else
        let i := Array_findIndex p arr' in
        if i <? 0 then -1 else i + 1
  end.

(** *** Numbers of the statistics

    [completionRate] goes through a division, so it is computed on
    binary64 numbers, as the host does. *)

(** The Number of an integer: an array length, below 2^32, is
    represented exactly. *)
Definition Number_of_Z (n : Z) : float := PrimFloat.of_uint63 (Uint63.of_Z n).

(** The integer nearest to [(if s then -m else m) * 2^e], the larger one
    when two are equally near. *)
Definition nearestInteger (s : bool) (m : positive) (e : Z) : Z :=
  let v := if s then - Z.pos m else Z.pos m in
  if 0 <=? e then v * 2 ^ e
  else (2 * v + 2 ^ (- e)) / 2 ^ (- e + 1).

(** [Math.round(x)]: a number that has no fraction part, a zero, an
    infinity and NaN are returned as they are; a result of zero keeps
    the sign of [x]. *)
Definition Math_round (x : float) : float :=
  match Prim2SF x with
  | S754_finite s m e =>
      if 0 <=? e then x
      else
        let k := nearestInteger s m e in
        if k =? 0 then (if s then PrimFloat.opp 0 else 0)%float
        else if k <? 0 then PrimFloat.opp (Number_of_Z (- k))
        else Number_of_Z k
  | _ => x
  end.

(** [n > 0 ? Math.round((c / n) * 100) : 0] *)
Definition completionRateOf (c n : Z) : float :=
  if 0 <? n then
    Math_round (PrimFloat.mul (PrimFloat.div (Number_of_Z c) (Number_of_Z n)) 100)
  else 0%float.

(** The statistics object built by [getStats] and by the [stats] memo of
    [HomeScreen]. *)
Record Stats : Type := mkStats {
  total : Z;
  n_completed : Z;
  active : Z;
  overdue : Z;
  completionRate : float
}.

Definition computeStats (now : Z) (tasks : list Task) : Stats :=
  let completed_ := Z.of_nat (length (List.filter (fun t => completed t) tasks)) in
  let overdue_ :=
    Z.of_nat
      (length
         (List.filter (fun t => negb (completed t) && (deadline t <? now)) tasks)) in
  {| total := Z.of_nat (length tasks);
     n_completed := completed_;
     active := Z.of_nat (length tasks) - completed_;
     overdue := overdue_;
     completionRate := completionRateOf completed_ (Z.of_nat (length tasks)) |}.

(** Forty tasks, twenty-three of them completed. *)
Definition fortyTasks : list Task :=
  List.repeat doneTask 23 ++ List.repeat unscored 17.

(** The rate of [c] completed tasks among [n] is a whole number between 0
    and 100, and is 100 when [c] is [n] and not 0. *)
Definition rateInRange (c n : nat) : bool :=
  let r := completionRateOf (Z.of_nat c) (Z.of_nat n) in
  existsb (fun k => PrimFloat.eqb r (Number_of_Z (Z.of_nat k))) (seq 0 101) &&
  PrimFloat.leb 0 r && PrimFloat.leb r 100 &&
  (negb ((c =? n)%nat && (0 <? n)%nat) || PrimFloat.eqb r 100).

Module taskService.

Definition readAll (sto : option (list Task)) : list Task := nullish sto [].

Definition writeAll (ok : bool) (tasks : list Task) (sto : option (list Task))
  : option (list Task) :=
  if ok then Some tasks else sto.

Definition getTasksByUser (user : string) (sto : option (list Task))
  : list Task :=
  let all := readAll sto in
  Array_sort (fun a b => inject_Z (createdAt b - createdAt a))
    (List.filter (fun t => String.eqb (userId t) user) all).

Definition getTaskById (taskId : string) (sto : option (list Task))
  : Result Task :=
  let all := readAll sto in
  match Array_find (fun t => String.eqb (task_id t) taskId) all with
  | None => Err (String.append "Task " (String.append taskId " not found"))
  | Some task => Ok task
  end.

(** [createTask(data)]; [now] is the clock reading and [newId] the value
    of [uuid.v4()]. *)
Definition createTask (ok : bool) (now : Z) (newId : string) (data : TaskData)
    (sto : option (list Task)) : Task * option (list Task) :=
  let newTask :=
    {| task_id := newId; userId := d_userId data; title := d_title data;
       description := d_description data; dateTime := d_dateTime data;
       deadline := d_deadline data; priority := d_priority data;
       category := d_category data; tags := d_tags data;
       completed := d_completed data; createdAt := now; updatedAt := now;
       sortScore := None |} in
  let all := readAll sto in
  let all := (all ++ [newTask])%list in
  (newTask, writeAll ok all sto).

Definition updateTask (ok : bool) (now : Z) (taskId : string)
    (updates : TaskPatch) (sto : option (list Task))
  : Result Task * option (list Task) :=
  let all := readAll sto in
  let index := Array_findIndex (fun t => String.eqb (task_id t) taskId) all in
  if index =? -1 then
    (Err (String.append "Task " (String.append taskId " not found")), sto)
  else
    match all !! Z.to_nat index with
    | None => (Err "", sto) (* not reached: [index] is within the array *)
    | Some old =>
        let spread := spreadPatch old updates in
        let merged :=
          {| task_id := taskId; userId := userId spread; title := title spread;
             description := description spread; dateTime := dateTime spread;
             deadline := deadline spread; priority := priority spread;
             category := category spread; tags := tags spread;
             completed := completed spread; createdAt := createdAt spread;
             updatedAt := now; sortScore := sortScore spread |} in
        let all := <[Z.to_nat index := merged]> all in
        (Ok merged, writeAll ok all sto)
    end.

Definition deleteTask (ok : bool) (taskId : string) (sto : option (list Task))
  : option (list Task) :=
  let all := readAll sto in
  let filtered := List.filter (fun t => negb (String.eqb (task_id t) taskId)) all in
  writeAll ok filtered sto.

Definition deleteAllByUser (ok : bool) (user : string)
    (sto : option (list Task)) : option (list Task) :=
  let all := readAll sto in
  writeAll ok (List.filter (fun t => negb (String.eqb (userId t) user)) all) sto.

Definition getStats (now : Z) (user : string) (sto : option (list Task))
  : Stats :=
  computeStats now (getTasksByUser user sto).

End taskService.

(** ** Task slice of the store ([store/tasksSlice.ts]) *)

Record TasksState : Type := mkTasksState {
  st_tasks : list Task;
  st_loading : bool;
  st_error : option string;
  st_filter : TaskFilter;
  st_sortOrder : SortOrder
}.

(** [Partial<TaskFilter>]; [tag] may be present with the value [null]. *)
Record FilterPatch : Type := mkFilterPatch {
  fp_status : option Status;
  fp_priority : option string;
  fp_category : option string;
  fp_searchQuery : option string;
  fp_tag : option (option string)
}.

(** [{ ...task, sortScore: calculateSmartScore(task) }]; the scorer takes
    its two clock readings. *)
Definition withScore (nowD nowA : Z) (task : Task) : Task :=
  {| task_id := task_id task; userId := userId task; title := title task;
     description := description task; dateTime := dateTime task;
     deadline := deadline task; priority := priority task;
     category := category task; tags := tags task;
     completed := completed task; createdAt := createdAt task;
     updatedAt := updatedAt task;
     sortScore := Some (calculateSmartScore nowD nowA task) |}.

(** [error.message || fallback] *)
Definition messageOr (message fallback : string) : string :=
  if truthy message then message else fallback.

Module tasksSlice.

Definition initialFilter : TaskFilter :=
  {| status := status_all; f_priority := "all"; f_category := "all";
     searchQuery := ""; tag := None |}.

Definition initialState : TasksState :=
  {| st_tasks := []; st_loading := false; st_error := None;
     st_filter := initialFilter; st_sortOrder := order_smart |}.

(** The actions the slice reacts to; [otherAction] stands for every
    action without a case, the pending actions of update, delete and
    toggle among them.  The payload of a rejected action is absent when
    the thunk did not reject with a value. *)
Inductive Action : Type :=
| setFilter (payload : FilterPatch)
| resetFilter
| setSortOrder (payload : SortOrder)
| setSearchQuery (payload : string)
| setPriorityFilter (payload : string)
| setCategoryFilter (payload : string)
| clearTasks
| clearTaskError
| fetchTasks_pending
| fetchTasks_fulfilled (payload : list Task)
| fetchTasks_rejected (payload : option string)
| addTask_pending
| addTask_fulfilled (payload : Task)
| addTask_rejected (payload : option string)
| updateTask_fulfilled (payload : Task)
| updateTask_rejected (payload : option string)
| deleteTask_fulfilled (payload : string)
| deleteTask_rejected (payload : option string)
| toggleTaskComplete_fulfilled (payload : Task)
| toggleTaskComplete_rejected (payload : option string)
| otherAction.

Definition withTasks (state : TasksState) (tasks : list Task) : TasksState :=
  {| st_tasks := tasks; st_loading := st_loading state;
     st_error := st_error state; st_filter := st_filter state;
     st_sortOrder := st_sortOrder state |}.

Definition withLoading (state : TasksState) (loading : bool) : TasksState :=
  {| st_tasks := st_tasks state; st_loading := loading;
     st_error := st_error state; st_filter := st_filter state;
     st_sortOrder := st_sortOrder state |}.

Definition withError (state : TasksState) (error : option string) : TasksState :=
  {| st_tasks := st_tasks state; st_loading := st_loading state;
     st_error := error; st_filter := st_filter state;
     st_sortOrder := st_sortOrder state |}.

Definition withFilter (state : TasksState) (filter : TaskFilter) : TasksState :=
  {| st_tasks := st_tasks state; st_loading := st_loading state;
     st_error := st_error state; st_filter := filter;
     st_sortOrder := st_sortOrder state |}.

(** [state.tasks[index] = payload] when [findIndex] found the id. *)
Definition replaceById (tasks : list Task) (payload : Task) : list Task :=
  let index :=
    Array_findIndex (fun t => String.eqb (task_id t) (task_id payload)) tasks in
  if negb (index =? -1) then <[Z.to_nat index := payload]> tasks else tasks.

Definition reducer (state : TasksState) (action : Action) : TasksState :=
  match action with
  | setFilter payload =>
      let f := st_filter state in
      withFilter state
        {| status := nullish (fp_status payload) (status f);
           f_priority := nullish (fp_priority payload) (f_priority f);
           f_category := nullish (fp_category payload) (f_category f);
           searchQuery := nullish (fp_searchQuery payload) (searchQuery f);
           tag := nullish (fp_tag payload) (tag f) |}
  | resetFilter => withFilter state initialFilter
  | setSortOrder payload =>
      {| st_tasks := st_tasks state; st_loading := st_loading state;
         st_error := st_error state; st_filter := st_filter state;
         st_sortOrder := payload |}
  | setSearchQuery payload =>
      let f := st_filter state in
      withFilter state
        {| status := status f; f_priority := f_priority f;
           f_category := f_category f; searchQuery := payload; tag := tag f |}
  | setPriorityFilter payload =>
      let f := st_filter state in
      withFilter state
        {| status := status f; f_priority := payload;
           f_category := f_category f; searchQuery := searchQuery f;
           tag := tag f |}
  | setCategoryFilter payload =>
      let f := st_filter state in
      withFilter state
        {| status := status f; f_priority := f_priority f;
           f_category := payload; searchQuery := searchQuery f; tag := tag f |}
  | clearTasks =>
      withError (withFilter (withTasks state []) initialFilter) None
  | clearTaskError => withError state None
  | fetchTasks_pending => withError (withLoading state true) None
  | fetchTasks_fulfilled payload => withTasks (withLoading state false) payload
  | fetchTasks_rejected payload =>
      withError (withLoading state false) (Some (nullish payload "Unknown error"))
  | addTask_pending => withError (withLoading state true) None
  | addTask_fulfilled payload =>
      withTasks (withLoading state false) (st_tasks state ++ [payload])%list
  | addTask_rejected payload =>
      withError (withLoading state false) (Some (nullish payload "Unknown error"))
  | updateTask_fulfilled payload =>
      withTasks state (replaceById (st_tasks state) payload)
  | updateTask_rejected payload =>
      withError state (Some (nullish payload "Update failed"))
  | deleteTask_fulfilled payload =>
      withTasks state
        (List.filter (fun t => negb (String.eqb (task_id t) payload))
           (st_tasks state))
  | deleteTask_rejected payload =>
      withError state (Some (nullish payload "Delete failed"))
  | toggleTaskComplete_fulfilled payload =>
      withTasks state (replaceById (st_tasks state) payload)
  | toggleTaskComplete_rejected payload =>
      withError state (Some (nullish payload "Toggle failed"))
  | otherAction => state
  end.

(** *** Thunks

    A thunk runs against the storage and settles into a fulfilled or
    rejected action.  [clock] gives the successive clock readings taken
    by the scorer. *)

Definition fetchTasks (clock : nat -> Z) (user : string)
    (sto : option (list Task)) : Action :=
  let tasks := taskService.getTasksByUser user sto in
  fetchTasks_fulfilled
    (imap (fun i t => withScore (clock (2 * i)%nat) (clock (2 * i + 1)%nat) t)
       tasks).

Definition addTask (ok : bool) (now : Z) (newId : string) (nowD nowA : Z)
    (taskData : TaskData) (sto : option (list Task))
  : Action * option (list Task) :=
  let '(task, sto') := taskService.createTask ok now newId taskData sto in
  (addTask_fulfilled (withScore nowD nowA task), sto').

Definition updateTask (ok : bool) (now nowD nowA : Z) (id : string)
    (updates : TaskPatch) (sto : option (list Task))
  : Action * option (list Task) :=
  match taskService.updateTask ok now id updates sto with
  | (Ok task, sto') => (updateTask_fulfilled (withScore nowD nowA task), sto')
  | (Err message, sto') =>
      (updateTask_rejected (Some (messageOr message "Failed to update task")),
       sto')
  end.

Definition deleteTask (ok : bool) (taskId : string) (sto : option (list Task))
  : Action * option (list Task) :=
  (deleteTask_fulfilled taskId, taskService.deleteTask ok taskId sto).

Definition toggleTaskComplete (ok : bool) (now nowD nowA : Z) (taskId : string)
    (state : TasksState) (sto : option (list Task))
  : Action * option (list Task) :=
  match Array_find (fun t => String.eqb (task_id t) taskId) (st_tasks state) with
  | None =>
      (toggleTaskComplete_rejected
         (Some (messageOr "Task not found" "Failed to toggle task")), sto)
  | Some existing =>
      let updates :=
        {| u_id := None; u_userId := None; u_title := None;
           u_description := None; u_dateTime := None; u_deadline := None;
           u_priority := None; u_category := None; u_tags := None;
           u_completed := Some (negb (completed existing));
           u_createdAt := None; u_updatedAt := None; u_sortScore := None |} in
      match taskService.updateTask ok now taskId updates sto with
      | (Ok task, sto') =>
          (toggleTaskComplete_fulfilled (withScore nowD nowA task), sto')
      | (Err message, sto') =>
          (toggleTaskComplete_rejected
             (Some (messageOr message "Failed to toggle task")), sto')
      end
  end.

End tasksSlice.

(** ** Further notions used in the statements *)

(** The five stages of the engine as one predicate on a task. *)
Definition passesAll (toLowerCase trim : string -> string) (f : TaskFilter)
    (t : Task) : bool :=
  match status f with
  | status_active => negb (completed t)
  | status_completed => completed t
  | status_all => true
  end
  && implb (negb (String.eqb (f_priority f) "all"))
       (String.eqb (Priority_str (priority t)) (f_priority f))
  && implb (negb (String.eqb (f_category f) "all"))
       (String.eqb (category t) (f_category f))
  && implb (match tag f with Some tg => truthy tg | None => false end)
       (Array_includes (tags t) (nullish (tag f) ""))
  && implb (truthy (trim (searchQuery f)))
       (includes (toLowerCase (title t)) (trim (toLowerCase (searchQuery f)))
        || includes (toLowerCase (description t))
             (trim (toLowerCase (searchQuery f)))
        || Array_some
             (fun tg => includes (toLowerCase tg)
                          (trim (toLowerCase (searchQuery f))))
             (tags t)).

(** [x] is the first element of [l] that satisfies [p], at index [n]. *)
Definition firstAt {A : Type} (p : A -> bool) (l : list A) (n : nat) (x : A)
  : Prop :=
  l !! n = Some x /\ p x = true /\
  (forall (m : nat) (y : A), (m < n)%nat -> l !! m = Some y -> p y = false).

(** The predicate [t => t.id === taskId]. *)
Definition hasId (taskId : string) (t : Task) : bool :=
  String.eqb (task_id t) taskId.

(** The data of a task to be created. *)
Definition reportData : TaskData :=
  {| d_userId := "u1"; d_title := "Send invoice"; d_description := "";
     d_dateTime := 1700000000000; d_deadline := 1700086400000;
     d_priority := high; d_category := "work"; d_tags := ["urgent"];
     d_completed := false |}.

(** ** Theorems *)

(** C1: a completed task scores exactly -1, whatever the clock readings,
    the priority and the deadline. *)
Theorem C1_completed_scores_minus_one :
  forall (nowD nowA : Z) (task : Task),
    completed task = true ->
    calculateSmartScore nowD nowA task = (-1)%Q.
Proof.
  intros nowD nowA task Hc. unfold calculateSmartScore. now rewrite Hc.
Qed.

Lemma C1_completed_scores_minus_one_witness :
  calculateSmartScore 1700000000000 1700000000001 doneTask = (-1)%Q.
Proof.
  apply (C1_completed_scores_minus_one 1700000000000 1700000000001 doneTask).
  reflexivity.
Defined.

(** *** Hours between two instants *)

Lemma differenceInHours_mono (a b now : Z) :
  a <= b -> differenceInHours a now <= differenceInHours b now.
Proof.
  intros Hab. unfold differenceInHours, MILLISECONDS_IN_HOUR.
  apply Z.quot_le_mono; lia.
Qed.

Lemma differenceInHours_overdue (now d : Z) :
  d <= now -> differenceInHours d now <= 0.
Proof.
  intros Hd.
  replace 0 with (differenceInHours now now).
  - now apply differenceInHours_mono.
  - unfold differenceInHours. now rewrite Z.sub_diag.
Qed.


(** *** The deadline component *)

Lemma deadlineUrgency_overdue (now d : Z) :
  d <= now -> deadlineUrgency now d = 1%R.
Proof.
  intros Hd. unfold deadlineUrgency.
  pose proof (differenceInHours_overdue now d Hd) as Hh.
  apply Z.leb_le in Hh. now rewrite Hh.
Qed.

Lemma exp_nonpos_le_1 (x : R) : (x <= 0)%R -> (exp x <= 1)%R.
Proof.
  intros [Hx | Hx].
  - rewrite <- exp_0. left. now apply exp_increasing.
  - subst x. rewrite exp_0. lra.
Qed.

Lemma exp_mono (x y : R) : (x <= y)%R -> (exp x <= exp y)%R.
Proof.
  intros [Hxy | Hxy].
  - left. now apply exp_increasing.
  - subst y. lra.
Qed.

Lemma deadlineUrgency_range (now d : Z) :
  (0 < deadlineUrgency now d <= 1)%R.
Proof.
  unfold deadlineUrgency.
  destruct (differenceInHours d now <=? 0) eqn:Hh.
  - lra.
  - apply Z.leb_gt in Hh. split.
    + apply exp_pos.
    + apply exp_nonpos_le_1. apply IZR_lt in Hh. nra.
Qed.

Lemma deadlineUrgency_antitone (now d1 d2 : Z) :
  d1 <= d2 -> (deadlineUrgency now d2 <= deadlineUrgency now d1)%R.
Proof.
  intros Hd. pose proof (differenceInHours_mono d1 d2 now Hd) as Hh.
  unfold deadlineUrgency.
  destruct (differenceInHours d2 now <=? 0) eqn:H2.
  - apply Z.leb_le in H2.
    assert (H1 : (differenceInHours d1 now <=? 0) = true) by (apply Z.leb_le; lia).
    rewrite H1. lra.
  - apply Z.leb_gt in H2.
    destruct (differenceInHours d1 now <=? 0) eqn:H1.
    + apply exp_nonpos_le_1. apply IZR_lt in H2. nra.
    + apply exp_mono. apply IZR_le in Hh. nra.
Qed.

(** *** Rounding to four fraction digits *)

Lemma toFixed4_mono (x y : R) : (x <= y)%R -> toFixed4 x <= toFixed4 y.
Proof.
  intros Hxy. unfold toFixed4.
  destruct (Rlt_dec x 0) as [Hx | Hx]; destruct (Rlt_dec y 0) as [Hy | Hy].
  - apply Z.opp_le_mono. rewrite !Z.opp_involutive. apply Zfloor_le. lra.
  - assert (0 <= Zfloor (- x * 10000 + / 2)) by (apply Zfloor_lub; simpl; lra).
    assert (0 <= Zfloor (y * 10000 + / 2)) by (apply Zfloor_lub; simpl; lra).
    lia.
  - lra.
  - apply Zfloor_le. lra.
Qed.

Lemma toFixed4_exact (n : Z) : toFixed4 (IZR n / 10000) = n.
Proof.
  unfold toFixed4. destruct (Rlt_dec (IZR n / 10000) 0) as [Hn | Hn].
  - replace (- (IZR n / 10000) * 10000 + / 2)%R with (/ 2 + IZR (- n))%R
      by (rewrite opp_IZR; field).
    rewrite Zfloor_addz.
    replace (Zfloor (/ 2)) with 0 by (symmetry; apply Zfloor_eq; simpl; lra).
    lia.
  - replace (IZR n / 10000 * 10000 + / 2)%R with (/ 2 + IZR n)%R by field.
    rewrite Zfloor_addz.
    replace (Zfloor (/ 2)) with 0 by (symmetry; apply Zfloor_eq; simpl; lra).
    lia.
Qed.

Lemma parseFloat4_le (m n : Z) : m <= n -> (parseFloat4 m <= parseFloat4 n)%Q.
Proof.
  intros Hmn. unfold parseFloat4, Qle. simpl. lia.
Qed.

(** *** The age component *)

Lemma ageBoost_le_1 (now c : Z) : (ageBoost now c <= 1)%R.
Proof.
  unfold ageBoost. replace 1.0%R with 1%R by lra. apply Rmin_r.
Qed.

Lemma ageBoost_nonneg (now c : Z) : c <= now -> (0 <= ageBoost now c)%R.
Proof.
  intros Hc. unfold ageBoost. apply Rmin_glb; [| lra].
  assert (Hh : 0 <= differenceInHours now c).
  { replace 0 with (differenceInHours c c)
      by (unfold differenceInHours; now rewrite Z.sub_diag).
    now apply differenceInHours_mono. }
  apply IZR_le in Hh. change (30 * 24) with 720.
  apply Rmult_le_pos; [exact Hh | lra].
Qed.

Lemma priorityNorm_range (p : Priority) :
  (/ 4 <= IZR (PRIORITY_WEIGHTS p) / 4 <= 1)%R.
Proof. destruct p; simpl; lra. Qed.

(** *** The score *)

Lemma score_incomplete (nowD nowA : Z) (task : Task) :
  completed task = false ->
  calculateSmartScore nowD nowA task =
  parseFloat4
    (toFixed4
       ((IZR (PRIORITY_WEIGHTS (priority task)) / 4 * 0.40
         + deadlineUrgency nowD (deadline task) * 0.40
         + ageBoost nowA (createdAt task) * 0.20) * 10)).
Proof.
  intros Hc. unfold calculateSmartScore. now rewrite Hc.
Qed.

(** With a creation instant that is not after the clock reading the score
    of an incomplete task lies between 1 and 10. *)
Lemma score_range_created_in_past (nowD nowA : Z) (task : Task) :
  completed task = false ->
  createdAt task <= nowA ->
  (1 <= calculateSmartScore nowD nowA task <= 10)%Q.
Proof.
  intros Hc Hpast. rewrite (score_incomplete _ _ _ Hc).
  pose proof (priorityNorm_range (priority task)) as Hp.
  pose proof (deadlineUrgency_range nowD (deadline task)) as Hd.
  pose proof (ageBoost_le_1 nowA (createdAt task)) as Ha1.
  pose proof (ageBoost_nonneg nowA (createdAt task) Hpast) as Ha0.
  set (raw := (_ * 0.40 + _ * 0.40 + _ * 0.20)%R) in *.
  assert (Hraw : (1 <= raw * 10 <= 10)%R) by (unfold raw; lra).
  split.
  - change 1%Q with (1 # 1)%Q.
    assert (H : 10000 <= toFixed4 (raw * 10)).
    { rewrite <- (toFixed4_exact 10000). apply toFixed4_mono. lra. }
    unfold parseFloat4, Qle. simpl. lia.
  - assert (H : toFixed4 (raw * 10) <= 100000).
    { rewrite <- (toFixed4_exact 100000). apply toFixed4_mono. lra. }
    unfold parseFloat4, Qle. simpl. lia.
Qed.

(** C2: the score is not confined to [-1, 10].  [ageBoost] takes the
    minimum with 1 and has no lower clamp, so a creation instant after
    the clock reading gives a negative age component; the task
    [createdAhead] scores -15. *)
Theorem C2_score_below_minus_one :
  calculateSmartScore 1700000000000 1700000000000 (createdAhead 1700000000000)
  = parseFloat4 (-150000) /\
  (ageBoost 1700000000000 (createdAt (createdAhead 1700000000000)) = -10)%R /\
  ~ (-1 <= calculateSmartScore 1700000000000 1700000000000
             (createdAhead 1700000000000) <= 10)%Q.
Proof.
  assert (Hage :
    (ageBoost 1700000000000 (createdAt (createdAhead 1700000000000)) = -10)%R).
  { unfold ageBoost, createdAhead, createdAt.
    replace (differenceInHours 1700000000000
               (1700000000000 + 7200 * MILLISECONDS_IN_HOUR)) with (-7200)
      by reflexivity.
    change (30 * 24) with 720.
    rewrite Rmin_left; lra. }
  assert (Hscore :
    calculateSmartScore 1700000000000 1700000000000 (createdAhead 1700000000000)
    = parseFloat4 (-150000)).
  { rewrite score_incomplete by reflexivity.
    rewrite Hage.
    replace (deadlineUrgency 1700000000000 (deadline (createdAhead 1700000000000)))
      with 1%R by (symmetry; apply deadlineUrgency_overdue; simpl; lia).
    f_equal. rewrite <- (toFixed4_exact (-150000)). f_equal.
    simpl. lra. }
  split; [exact Hscore |]. split; [exact Hage |].
  rewrite Hscore. intros [Hlo _]. revert Hlo.
  unfold parseFloat4, Qle. simpl. lia.
Qed.

(** C3: for an incomplete task whose deadline is at or before the clock
    reading, the deadline component is exactly 1 and the score is the
    rounded blend of the priority and age components alone. *)
Theorem C3_overdue_saturation :
  forall (nowD nowA : Z) (task : Task),
    completed task = false ->
    deadline task <= nowD ->
    deadlineUrgency nowD (deadline task) = 1%R /\
    calculateSmartScore nowD nowA task =
    parseFloat4
      (toFixed4
         ((IZR (PRIORITY_WEIGHTS (priority task)) / 4 * 0.40
           + 1 * 0.40
           + ageBoost nowA (createdAt task) * 0.20) * 10)).
Proof.
  intros nowD nowA task Hc Hd.
  pose proof (deadlineUrgency_overdue nowD (deadline task) Hd) as H1.
  split; [exact H1 |].
  rewrite (score_incomplete _ _ _ Hc). now rewrite H1.
Qed.

Lemma C3_overdue_saturation_witness :
  deadlineUrgency 1700000000000 (deadline (createdAhead 1700000000000)) = 1%R /\
  calculateSmartScore 1700000000000 1700000000000 (createdAhead 1700000000000) =
  parseFloat4
    (toFixed4
       ((IZR (PRIORITY_WEIGHTS (priority (createdAhead 1700000000000))) / 4 * 0.40
         + 1 * 0.40
         + ageBoost 1700000000000 (createdAt (createdAhead 1700000000000)) * 0.20)
        * 10)).
Proof.
  apply (C3_overdue_saturation 1700000000000 1700000000000
           (createdAhead 1700000000000)).
  - reflexivity.
  - simpl. lia.
Defined.

Lemma scenarioA_hours (now : Z) :
  differenceInHours (now - MILLISECONDS_IN_HOUR) now = -1 /\
  differenceInHours now (now - MILLISECONDS_IN_HOUR) = 1.
Proof.
  unfold differenceInHours.
  replace (now - MILLISECONDS_IN_HOUR - now) with (- MILLISECONDS_IN_HOUR) by lia.
  replace (now - (now - MILLISECONDS_IN_HOUR)) with MILLISECONDS_IN_HOUR by lia.
  split; reflexivity.
Qed.

Lemma scenarioA_age (now : Z) :
  ageBoost now (createdAt (scenarioA now)) = (1 / 720)%R.
Proof.
  unfold ageBoost, scenarioA, createdAt.
  destruct (scenarioA_hours now) as [_ ->].
  change (30 * 24) with 720. rewrite Rmin_left; lra.
Qed.

Lemma scenarioA_score (now : Z) :
  calculateSmartScore now now (scenarioA now) = parseFloat4 80028.
Proof.
  rewrite score_incomplete by reflexivity.
  rewrite scenarioA_age.
  replace (deadlineUrgency now (deadline (scenarioA now))) with 1%R
    by (symmetry; apply deadlineUrgency_overdue; simpl;
        unfold MILLISECONDS_IN_HOUR; lia).
  f_equal. unfold toFixed4.
  destruct (Rlt_dec _ 0) as [Hneg | _].
  - simpl in Hneg. lra.
  - apply Zfloor_eq. simpl. lra.
Qed.

(** C4 as stated fails: in scenario A the score is not within 0.001 of
    8.0003. *)
Lemma C4_scenarioA_not_8_0003 :
  ~ (Qabs (calculateSmartScore 0 0 (scenarioA 0) - 8.0003) <= 0.001)%Q.
Proof.
  rewrite scenarioA_score. unfold parseFloat4. vm_compute. intros H. apply H.
  reflexivity.
Qed.

(** C4, amended: in scenario A the deadline component is 1, the priority
    component is 1, the age component is 1/720 and the score is 8.0028. *)
Theorem C4_scenarioA :
  forall now : Z,
    deadlineUrgency now (deadline (scenarioA now)) = 1%R /\
    (IZR (PRIORITY_WEIGHTS (priority (scenarioA now))) / 4 = 1)%R /\
    ageBoost now (createdAt (scenarioA now)) = (1 / 720)%R /\
    (calculateSmartScore now now (scenarioA now) == 8.0028)%Q.
Proof.
  intros now. repeat split.
  - apply deadlineUrgency_overdue. simpl. unfold MILLISECONDS_IN_HOUR. lia.
  - simpl. lra.
  - apply scenarioA_age.
  - rewrite scenarioA_score. reflexivity.
Qed.

(** C7: of two incomplete tasks with the same priority and creation
    instant and deadlines after the clock reading, the one with the later
    deadline has the lower or equal deadline component and the lower or
    equal score. *)
Theorem C7_monotonic_decay :
  forall (nowD nowA : Z) (t1 t2 : Task),
    completed t1 = false ->
    completed t2 = false ->
    priority t1 = priority t2 ->
    createdAt t1 = createdAt t2 ->
    nowD < deadline t1 ->
    deadline t1 <= deadline t2 ->
    (deadlineUrgency nowD (deadline t2) <= deadlineUrgency nowD (deadline t1))%R /\
    (calculateSmartScore nowD nowA t2 <= calculateSmartScore nowD nowA t1)%Q.
Proof.
  intros nowD nowA t1 t2 Hc1 Hc2 Hp Hcr _ Hd.
  pose proof (deadlineUrgency_antitone nowD _ _ Hd) as Hdl.
  split; [exact Hdl |].
  rewrite (score_incomplete _ _ _ Hc1), (score_incomplete _ _ _ Hc2).
  rewrite Hp, Hcr.
  apply parseFloat4_le, toFixed4_mono. lra.
Qed.

Lemma C7_monotonic_decay_witness :
  (deadlineUrgency 1700000000000 (deadline (dueIn 1700000000000 72 0))
   <= deadlineUrgency 1700000000000 (deadline (dueIn 1700000000000 24 0)))%R /\
  (calculateSmartScore 1700000000000 1700000000005 (dueIn 1700000000000 72 0)
   <= calculateSmartScore 1700000000000 1700000000005 (dueIn 1700000000000 24 0))%Q.
Proof.
  apply (C7_monotonic_decay 1700000000000 1700000000005
           (dueIn 1700000000000 24 0) (dueIn 1700000000000 72 0));
    try reflexivity; simpl; unfold MILLISECONDS_IN_HOUR; lia.
Defined.





(** *** The sort *)

Section SortFacts.

Context {A : Type} (compareFn : A -> A -> Q).

Lemma sort_insert_perm (x : A) (l : list A) :
  Permutation (sort_insert compareFn x l) (x :: l).
Proof.
  induction l as [| y l IH]; simpl.
  - reflexivity.
  - destruct (Qle_bool (compareFn x y) 0).
    + reflexivity.
    + rewrite IH. apply perm_swap.
Qed.

Lemma Array_sort_perm (l : list A) : Permutation (Array_sort compareFn l) l.
Proof.
  induction l as [| x l IH]; simpl.
  - reflexivity.
  - rewrite sort_insert_perm. now apply perm_skip.
Qed.

Lemma In_Array_sort (x : A) (l : list A) :
  In x (Array_sort compareFn l) <-> In x l.
Proof.
  split; apply Permutation_in;
    [apply Array_sort_perm | symmetry; apply Array_sort_perm].
Qed.

(** An order [R] that the comparator respects is established by the
    sort: a non-positive result puts the arguments in the order [R], a
    positive one in the converse order. *)
Variable R : A -> A -> Prop.
Hypothesis R_trans : forall x y z, R x y -> R y z -> R x z.
Hypothesis R_kept : forall x y, Qle_bool (compareFn x y) 0 = true -> R x y.
Hypothesis R_swapped : forall x y, Qle_bool (compareFn x y) 0 = false -> R y x.

Lemma sort_insert_sorted (x : A) (l : list A) :
  StronglySorted R l -> StronglySorted R (sort_insert compareFn x l).
Proof.
  induction l as [| y l IH]; simpl; intros Hs.
  - constructor; constructor.
  - inversion Hs as [| ? ? Hl Hy]; subst.
    destruct (Qle_bool (compareFn x y) 0) eqn:Hc.
    + constructor; [exact Hs |].
      constructor; [now apply R_kept |].
      rewrite List.Forall_forall in Hy. apply List.Forall_forall. intros z Hz.
      apply R_trans with y; [now apply R_kept | now apply Hy].
    + constructor; [now apply IH |].
      apply List.Forall_forall. intros z Hz.
      apply (Permutation_in _ (sort_insert_perm x l)) in Hz.
      destruct Hz as [<- | Hz].
      * now apply R_swapped.
      * rewrite List.Forall_forall in Hy. now apply Hy.
Qed.

Lemma Array_sort_sorted (l : list A) : StronglySorted R (Array_sort compareFn l).
Proof.
  induction l as [| x l IH]; simpl.
  - constructor.
  - now apply sort_insert_sorted.
Qed.

End SortFacts.

Lemma StronglySorted_lookup {A : Type} (R : A -> A -> Prop) (l : list A) :
  StronglySorted R l ->
  forall (i j : nat) (a b : A),
    (i < j)%nat -> l !! i = Some a -> l !! j = Some b -> R a b.
Proof.
  induction 1 as [| x l Hl IH Hx]; intros i j a b Hij Ha Hb.
  - now rewrite lookup_nil in Ha.
  - destruct j as [| j]; [lia |].
    destruct i as [| i]; simpl in Ha, Hb.
    + injection Ha as <-. rewrite List.Forall_forall in Hx. apply Hx.
      apply list_elem_of_In. eapply list_elem_of_lookup_2. exact Hb.
    + apply (IH i j); [lia | exact Ha | exact Hb].
Qed.

(** *** Completed tasks sink *)

Lemma sinks_trans (x y z : Task) : sinks x y -> sinks y z -> sinks x z.
Proof. unfold sinks. auto. Qed.

Lemma comparator_kept_sinks (lc : string -> string -> Z) (order : SortOrder)
    (x y : Task) :
  Qle_bool (getComparator lc order x y) 0 = true -> sinks x y.
Proof.
  unfold getComparator, sinks.
  destruct (completed x), (completed y); simpl; intros H Hx;
    try reflexivity; try discriminate.
Qed.

Lemma comparator_swapped_sinks (lc : string -> string -> Z) (order : SortOrder)
    (x y : Task) :
  Qle_bool (getComparator lc order x y) 0 = false -> sinks y x.
Proof.
  unfold getComparator, sinks.
  destruct (completed x), (completed y); simpl; intros H Hy;
    try reflexivity; try discriminate.
Qed.

(** C5: in the sequence returned by the engine, for every sort order, no
    completed task stands at an earlier position than an incomplete one. *)
Theorem C5_completed_always_last :
  forall (localeCompare : string -> string -> Z)
         (toLowerCase trim : string -> string) (tasks : list Task)
         (filter : TaskFilter) (order : SortOrder) (i j : nat) (a b : Task),
    (i < j)%nat ->
    sortAndFilterTasks localeCompare toLowerCase trim tasks filter order !! i = Some a ->
    sortAndFilterTasks localeCompare toLowerCase trim tasks filter order !! j = Some b ->
    ~ (completed a = true /\ completed b = false).
Proof.
  intros lc lw tr tasks filter order i j a b Hij Ha Hb [Hca Hcb].
  assert (Hs : sinks a b).
  { apply (StronglySorted_lookup sinks
             (sortAndFilterTasks lc lw tr tasks filter order)) with i j;
      [| exact Hij | exact Ha | exact Hb].
    unfold sortAndFilterTasks. cbv zeta.
    apply Array_sort_sorted.
    - exact sinks_trans.
    - apply comparator_kept_sinks.
    - apply comparator_swapped_sinks. }
  rewrite (Hs Hca) in Hcb. discriminate.
Qed.

Lemma C5_completed_always_last_witness :
  ~ (completed scoredBelow = true /\ completed doneTask = false).
Proof.
  apply (C5_completed_always_last ordinalCompare asciiToLowerCase asciiTrim sampleTasks noFilter
           order_deadline 2 3 scoredBelow doneTask).
  - lia.
  - vm_compute. reflexivity.
  - vm_compute. reflexivity.
Defined.

(** *** String methods against their specification *)

Lemma truthy_spec (s : string) : truthy s = true <-> s <> "".
Proof. destruct s; simpl; split; congruence. Qed.

Lemma prefix_spec (q s : string) :
  String.prefix q s = true <-> exists post, s = String.append q post.
Proof.
  revert s. induction q as [| c q IH]; intros s.
  - split; [intros _; now exists s | intros _; now destruct s].
  - destruct s as [| d s]; simpl.
    + split; [discriminate | intros [post H]; discriminate].
    + destruct (ascii_dec c d) as [-> | Hcd].
      * rewrite IH. split; intros [post H]; exists post.
        -- simpl. now rewrite H.
        -- simpl in H. now injection H.
      * split; [discriminate |].
        intros [post H]. simpl in H. injection H as Hd _. now symmetry in Hd.
Qed.

Lemma includes_empty (q : string) : includes "" q = String.prefix q "".
Proof. simpl. apply orb_false_r. Qed.

Lemma includes_String (c : ascii) (s q : string) :
  includes (String c s) q = String.prefix q (String c s) || includes s q.
Proof. reflexivity. Qed.

Lemma includes_spec (s q : string) : includes s q = true <-> occursIn q s.
Proof.
  unfold occursIn. induction s as [| c s IH].
  - rewrite includes_empty, prefix_spec. split.
    + intros [post H]. now exists "", post.
    + intros [[| d pre] [post H]]; [now exists post | discriminate].
  - rewrite includes_String, orb_true_iff, prefix_spec, IH. split.
    + intros [[post H] | [pre [post H]]].
      * now exists "", post.
      * exists (String c pre), post. simpl. now rewrite H.
    + intros [[| d pre] [post H]].
      * left. now exists post.
      * right. exists pre, post. simpl in H. now injection H.
Qed.

Lemma isWhiteSpace_lower (c : ascii) :
  isWhiteSpace (lower_ascii c) = isWhiteSpace c.
Proof.
  destruct c as [[] [] [] [] [] [] [] []]; reflexivity.
Qed.

Lemma trimStart_lower (s : string) :
  trimStart (asciiToLowerCase s) = asciiToLowerCase (trimStart s).
Proof.
  induction s as [| c s IH]; simpl.
  - reflexivity.
  - rewrite isWhiteSpace_lower. now destruct (isWhiteSpace c).
Qed.

Lemma trimEnd_lower (s : string) :
  trimEnd (asciiToLowerCase s) = asciiToLowerCase (trimEnd s).
Proof.
  induction s as [| c s IH]; simpl.
  - reflexivity.
  - rewrite IH, isWhiteSpace_lower.
    destruct (trimEnd s); simpl.
    + now destruct (isWhiteSpace c).
    + reflexivity.
Qed.

(** Trimming and lower-casing commute: the query that the engine builds
    by lower-casing first is the lower-cased trimmed query. *)
Lemma trim_toLowerCase (s : string) :
  asciiTrim (asciiToLowerCase s) = asciiToLowerCase (asciiTrim s).
Proof.
  unfold asciiTrim. now rewrite trimStart_lower, trimEnd_lower.
Qed.

Lemma Array_includes_spec (arr : list string) (x : string) :
  Array_includes arr x = true <-> In x arr.
Proof.
  unfold Array_includes. rewrite existsb_exists. split.
  - intros [y [Hy Heq]]. apply String.eqb_eq in Heq. now subst y.
  - intros Hx. exists x. split; [exact Hx | apply String.eqb_refl].
Qed.

Lemma In_cond_filter {A : Type} (c : bool) (p : A -> bool) (l : list A) (x : A) :
  In x (if c then List.filter p l else l) <->
  In x l /\ (c = true -> p x = true).
Proof.
  destruct c.
  - rewrite filter_In. intuition.
  - intuition discriminate.
Qed.

(** *** The filter stages against the restrictions *)

Lemma status_stage (f : TaskFilter) (l : list Task) (t : Task) :
  In t (match status f with
        | status_active => List.filter (fun t => negb (completed t)) l
        | status_completed => List.filter (fun t => completed t) l
        | status_all => l
        end) <->
  In t l /\ statusRestriction f t.
Proof.
  unfold statusRestriction. destruct (status f).
  - tauto.
  - rewrite filter_In, negb_true_iff. tauto.
  - rewrite filter_In. tauto.
Qed.

Lemma priority_stage (f : TaskFilter) (t : Task) :
  (negb (String.eqb (f_priority f) "all") = true ->
   String.eqb (Priority_str (priority t)) (f_priority f) = true) <->
  priorityRestriction f t.
Proof.
  unfold priorityRestriction. rewrite negb_true_iff, String.eqb_eq.
  destruct (String.eqb_spec (f_priority f) "all") as [He | Hne].
  - split; [now left | discriminate].
  - split; [intros H; right; now apply H | intros [H | H] _; congruence].
Qed.

Lemma category_stage (f : TaskFilter) (t : Task) :
  (negb (String.eqb (f_category f) "all") = true ->
   String.eqb (category t) (f_category f) = true) <->
  categoryRestriction f t.
Proof.
  unfold categoryRestriction. rewrite negb_true_iff, String.eqb_eq.
  destruct (String.eqb_spec (f_category f) "all") as [He | Hne].
  - split; [now left | discriminate].
  - split; [intros H; right; now apply H | intros [H | H] _; congruence].
Qed.

Lemma tag_stage (f : TaskFilter) (t : Task) :
  (match tag f with Some tg => truthy tg | None => false end = true ->
   Array_includes (tags t) (nullish (tag f) "") = true) <->
  tagRestriction f t.
Proof.
  unfold tagRestriction. rewrite Array_includes_spec.
  destruct (tag f) as [tg |]; simpl.
  - rewrite truthy_spec. split.
    + intros H tg' Heq Hne. injection Heq as <-. now apply H.
    + intros H Hne. now apply H.
  - split; [discriminate | intros _ H; discriminate].
Qed.

Lemma search_stage (lw tr : string -> string) (f : TaskFilter) (t : Task) :
  (truthy (tr (searchQuery f)) = true ->
   includes (lw (title t)) (tr (lw (searchQuery f))) ||
   includes (lw (description t)) (tr (lw (searchQuery f))) ||
   Array_some (fun tg => includes (lw tg) (tr (lw (searchQuery f)))) (tags t)
   = true) <->
  searchRestriction lw tr f t.
Proof.
  unfold searchRestriction, Array_some. cbv zeta.
  rewrite truthy_spec, !orb_true_iff, !includes_spec, existsb_exists.
  assert (Htags :
    (exists tg, In tg (tags t) /\
       includes (lw tg) (tr (lw (searchQuery f))) = true) <->
    (exists tg, In tg (tags t) /\
       occursIn (tr (lw (searchQuery f))) (lw tg))).
  { split; intros [tg [Hin H]]; exists tg; split; try exact Hin;
      now apply includes_spec. }
  rewrite Htags. tauto.
Qed.

Lemma engine_satisfiesAll (lc : string -> string -> Z) (lw tr : string -> string)
    (tasks : list Task) (filter : TaskFilter) (order : SortOrder) (t : Task) :
  In t (sortAndFilterTasks lc lw tr tasks filter order) <->
  In t tasks /\ satisfiesAll lw tr filter t.
Proof.
  unfold sortAndFilterTasks, satisfiesAll. cbv zeta.
  rewrite In_Array_sort, !In_cond_filter, status_stage.
  rewrite priority_stage, category_stage, tag_stage, search_stage.
  tauto.
Qed.

(** *** Lower-casing on ASCII text is equality up to case *)

Lemma nat_of_lower_ascii (c : ascii) :
  nat_of_ascii (lower_ascii c) =
  if ((65 <=? nat_of_ascii c) && (nat_of_ascii c <=? 90))%nat
  then (nat_of_ascii c + 32)%nat else nat_of_ascii c.
Proof.
  destruct c as [[] [] [] [] [] [] [] []]; reflexivity.
Qed.

Lemma nat_of_ascii_inj (c d : ascii) : nat_of_ascii c = nat_of_ascii d -> c = d.
Proof.
  intros H. rewrite <- (ascii_nat_embedding c), <- (ascii_nat_embedding d).
  now rewrite H.
Qed.

Lemma lower_ascii_eq_iff (c d : ascii) :
  lower_ascii c = lower_ascii d <-> eqIgnoreCase c d.
Proof.
  unfold eqIgnoreCase. cbv zeta. split.
  - intros H. apply (f_equal nat_of_ascii) in H.
    rewrite !nat_of_lower_ascii in H.
    destruct (Nat.leb_spec 65 (nat_of_ascii c)),
             (Nat.leb_spec (nat_of_ascii c) 90),
             (Nat.leb_spec 65 (nat_of_ascii d)),
             (Nat.leb_spec (nat_of_ascii d) 90); simpl in H; lia.
  - intros H. apply nat_of_ascii_inj. rewrite !nat_of_lower_ascii.
    destruct (Nat.leb_spec 65 (nat_of_ascii c)),
             (Nat.leb_spec (nat_of_ascii c) 90),
             (Nat.leb_spec 65 (nat_of_ascii d)),
             (Nat.leb_spec (nat_of_ascii d) 90); simpl; lia.
Qed.

Lemma asciiToLowerCase_app (s1 s2 : string) :
  asciiToLowerCase (String.append s1 s2) =
  String.append (asciiToLowerCase s1) (asciiToLowerCase s2).
Proof.
  induction s1 as [| c s1 IH]; simpl; [reflexivity | now rewrite IH].
Qed.

Lemma asciiToLowerCase_app_inv (s a b : string) :
  asciiToLowerCase s = String.append a b ->
  exists s1 s2 : string,
    s = String.append s1 s2 /\ asciiToLowerCase s1 = a /\ asciiToLowerCase s2 = b.
Proof.
  revert s. induction a as [| x a IH]; intros s H.
  - exists "", s. repeat split. exact H.
  - destruct s as [| c s]; [discriminate |]. simpl in H.
    injection H as Hc Hs. destruct (IH s Hs) as (s1 & s2 & -> & H1 & H2).
    exists (String c s1), s2. repeat split; [| exact H2].
    simpl. now rewrite Hc, H1.
Qed.

Lemma asciiToLowerCase_same (a b : string) :
  asciiToLowerCase a = asciiToLowerCase b <-> sameIgnoringCase a b.
Proof.
  revert b. induction a as [| c a IH]; intros [| d b]; simpl.
  - tauto.
  - split; [discriminate | contradiction].
  - split; [discriminate | contradiction].
  - rewrite <- IH, <- lower_ascii_eq_iff. split.
    + intros H. now injection H.
    + intros [-> ->]. reflexivity.
Qed.

Lemma occurs_lower_iff (q s : string) :
  occursIn (asciiToLowerCase q) (asciiToLowerCase s) <-> occursIgnoringCase q s.
Proof.
  unfold occursIn, occursIgnoringCase. split.
  - intros (pre & post & H).
    apply asciiToLowerCase_app_inv in H as (s1 & s23 & -> & _ & H).
    apply asciiToLowerCase_app_inv in H as (s2 & s3 & -> & H & _).
    exists s1, s2, s3. split; [reflexivity | now apply asciiToLowerCase_same].
  - intros (pre & mid & post & -> & H). apply asciiToLowerCase_same in H.
    exists (asciiToLowerCase pre), (asciiToLowerCase post).
    now rewrite !asciiToLowerCase_app, H.
Qed.

Lemma isAscii_lower (s : string) : isAscii (asciiToLowerCase s) = isAscii s.
Proof.
  induction s as [| c s IH]; simpl; [reflexivity |]. rewrite IH. f_equal.
  destruct c as [[] [] [] [] [] [] [] []]; reflexivity.
Qed.

(** *** Trimming on ASCII text removes the white space at the two ends *)

Lemma trimStart_app_ws (l x : string) :
  allWhiteSpace l = true -> trimStart (String.append l x) = trimStart x.
Proof.
  induction l as [| c l IH]; simpl; [reflexivity |].
  intros H. apply andb_true_iff in H as [Hc Hl]. rewrite Hc. now apply IH.
Qed.

Lemma trimStart_clean (x : string) : startsClean x -> trimStart x = x.
Proof.
  destruct x as [| c x]; simpl; [reflexivity |]. now intros ->.
Qed.

Lemma trimEnd_allWhiteSpace (r : string) :
  allWhiteSpace r = true -> trimEnd r = "".
Proof.
  induction r as [| c r IH]; simpl; [reflexivity |].
  intros H. apply andb_true_iff in H as [Hc Hr]. now rewrite (IH Hr), Hc.
Qed.

Lemma trimEnd_app_ws (x r : string) :
  allWhiteSpace r = true -> trimEnd (String.append x r) = trimEnd x.
Proof.
  intros Hr. induction x as [| c x IH]; simpl.
  - now apply trimEnd_allWhiteSpace.
  - now rewrite IH.
Qed.

Lemma trimEnd_clean (x : string) : endsClean x -> trimEnd x = x.
Proof.
  induction x as [| c x IH]; [reflexivity |].
  destruct x as [| d x].
  - simpl. now intros ->.
  - intros H. change (endsClean (String d x)) in H.
    change (trimEnd (String c (String d x)))
      with (match trimEnd (String d x) with
            | EmptyString =>
                if isWhiteSpace c then EmptyString else String c EmptyString
            | r => String c r
            end).
    now rewrite (IH H).
Qed.

Lemma trimStart_split (q : string) :
  exists l : string,
    q = String.append l (trimStart q) /\ allWhiteSpace l = true /\
    startsClean (trimStart q).
Proof.
  induction q as [| c q (l & Hq & Hl & Hs)]; simpl.
  - exists "". repeat split.
  - destruct (isWhiteSpace c) eqn:Hc.
    + exists (String c l). split; [exact (f_equal (String c) Hq) |].
      split; [simpl; now rewrite Hc | exact Hs].
    + exists "". split; [reflexivity |].
      split; [reflexivity | simpl; exact Hc].
Qed.

Lemma trimEnd_split (x : string) :
  exists r : string,
    x = String.append (trimEnd x) r /\ allWhiteSpace r = true /\
    endsClean (trimEnd x) /\ (startsClean x -> startsClean (trimEnd x)).
Proof.
  induction x as [| c x (r & Hx & Hr & He & _)].
  - exists "". repeat split.
  - change (trimEnd (String c x))
      with (match trimEnd x with
            | EmptyString =>
                if isWhiteSpace c then EmptyString else String c EmptyString
            | r => String c r
            end).
    destruct (trimEnd x) as [| d y] eqn:Ht.
    + destruct (isWhiteSpace c) eqn:Hc.
      * exists (String c r). split; [exact (f_equal (String c) Hx) |].
        split; [simpl; now rewrite Hc, Hr |].
        split; [exact I | intros _; exact I].
      * exists r. split; [exact (f_equal (String c) Hx) |].
        split; [exact Hr |].
        split; [exact Hc | intros _; exact Hc].
    + exists r. split; [exact (f_equal (String c) Hx) |].
      split; [exact Hr |].
      split; [exact He | intros H; exact H].
Qed.

(** The trimmed string is the one without white space at its ends, and
    the only one. *)
Lemma asciiTrim_trimmedOf (q : string) : trimmedOf q (asciiTrim q).
Proof.
  unfold trimmedOf, asciiTrim.
  destruct (trimStart_split q) as (l & Hq & Hl & Hs).
  destruct (trimEnd_split (trimStart q)) as (r & Hx & Hr & He & Hs').
  exists l, r. repeat split; try assumption.
  - now rewrite <- Hx.
  - now apply Hs'.
Qed.

Lemma trimmedOf_asciiTrim (q q' : string) : trimmedOf q q' -> asciiTrim q = q'.
Proof.
  intros (l & r & -> & Hl & Hr & Hs & He). unfold asciiTrim.
  rewrite (trimStart_app_ws _ _ Hl).
  destruct q' as [| c q'].
  - change (String.append "" r) with r.
    assert (Hr' : trimStart r = "").
    { clear - Hr. induction r as [| d r IH]; simpl; [reflexivity |].
      apply andb_true_iff in Hr as [Hd Hr]. rewrite Hd. now apply IH. }
    now rewrite Hr'.
  - rewrite trimStart_clean by exact Hs.
    rewrite (trimEnd_app_ws _ _ Hr). now apply trimEnd_clean.
Qed.

(** On ASCII text, with the host's methods doing there what the ASCII
    instance does, the search of the engine is the search worded without
    the methods. *)
Lemma searchRestriction_plain (lw tr : string -> string) (f : TaskFilter)
    (t : Task) :
  agreesOnAscii lw tr ->
  isAscii (searchQuery f) = true ->
  asciiTask t = true ->
  (searchRestriction lw tr f t <-> searchRestrictionPlain f t).
Proof.
  intros [Hlw Htr] Hq Ht. unfold asciiTask in Ht.
  apply andb_true_iff in Ht as [Ht Htags].
  apply andb_true_iff in Ht as [Htitle Hdescr].
  rewrite forallb_forall in Htags.
  unfold searchRestriction, searchRestrictionPlain. cbv zeta.
  rewrite (Hlw _ Hq), (Htr (searchQuery f) Hq), (Hlw _ Htitle), (Hlw _ Hdescr).
  rewrite (Htr (asciiToLowerCase (searchQuery f)))
    by (now rewrite isAscii_lower).
  rewrite trim_toLowerCase, !occurs_lower_iff.
  assert (Htg :
    (exists tg, In tg (tags t) /\
       occursIn (asciiToLowerCase (asciiTrim (searchQuery f))) (lw tg)) <->
    (exists tg, In tg (tags t) /\
       occursIgnoringCase (asciiTrim (searchQuery f)) tg)).
  { split; intros (tg & Hin & H); exists tg; split; try exact Hin.
    - rewrite (Hlw tg (Htags tg Hin)) in H. now apply occurs_lower_iff.
    - rewrite (Hlw tg (Htags tg Hin)). now apply occurs_lower_iff. }
  rewrite Htg. split.
  - intros H q' Htrim Hne. apply trimmedOf_asciiTrim in Htrim. subst q'.
    now apply H.
  - intros H Hne. apply (H _ (asciiTrim_trimmedOf (searchQuery f)) Hne).
Qed.

(** C6: a task is in the sequence returned by the engine exactly when it
    is in the input and satisfies the status, priority, category, tag and
    search restrictions together.  The search restriction is stated with
    the host's [toLowerCase] and [trim], for every text; and, for ASCII
    text, without them: the query without the white space at its ends
    occurs, up to the case of the letters A-Z, in the title, the
    description or a tag. *)
Theorem C6_filter_composition :
  forall (localeCompare : string -> string -> Z)
         (toLowerCase trim : string -> string) (tasks : list Task)
         (filter : TaskFilter) (order : SortOrder) (t : Task),
    (In t (sortAndFilterTasks localeCompare toLowerCase trim tasks filter order)
     <-> In t tasks /\ satisfiesAll toLowerCase trim filter t) /\
    (agreesOnAscii toLowerCase trim ->
     isAscii (searchQuery filter) = true ->
     forallb asciiTask tasks = true ->
     (In t (sortAndFilterTasks localeCompare toLowerCase trim tasks filter order)
      <-> In t tasks /\ satisfiesAllPlain filter t)).
Proof.
  intros lc lw tr tasks filter order t.
  pose proof (engine_satisfiesAll lc lw tr tasks filter order t) as Hgen.
  split; [exact Hgen |].
  intros Hhost Hq Htasks. rewrite Hgen.
  rewrite forallb_forall in Htasks.
  unfold satisfiesAll, satisfiesAllPlain. split.
  - intros (Hin & Hs & Hp & Hc & Htag & Hsearch). repeat split; try assumption.
    now apply (searchRestriction_plain lw tr filter t Hhost Hq (Htasks t Hin)).
  - intros (Hin & Hs & Hp & Hc & Htag & Hsearch). repeat split; try assumption.
    now apply (searchRestriction_plain lw tr filter t Hhost Hq (Htasks t Hin)).
Qed.

Lemma C6_filter_composition_witness :
  (In viaDescription
      (sortAndFilterTasks ordinalCompare asciiToLowerCase asciiTrim
         compositeTasks compositeFilter order_deadline)
   <-> In viaDescription compositeTasks
       /\ satisfiesAllPlain compositeFilter viaDescription) /\
  map task_id
    (sortAndFilterTasks ordinalCompare asciiToLowerCase asciiTrim
       compositeTasks compositeFilter order_deadline)
  = ["11"; "6"; "7"; "1"].
Proof.
  split.
  - apply (proj2 (C6_filter_composition ordinalCompare asciiToLowerCase
                    asciiTrim compositeTasks compositeFilter order_deadline
                    viaDescription)).
    + split; intros s _; reflexivity.
    + reflexivity.
    + reflexivity.
  - vm_compute. reflexivity.
Defined.

(** *** Arrays allocated and updated by the engine *)

Lemma freshResult_dom (s s' : gmap loc (list Task)) (res : loc) (l : list Task)
    (r : loc) :
  freshResult s res l s' -> r ∈ dom s -> r ∈ dom s'.
Proof.
  intros (_ & _ & Hkeep) Hr. apply elem_of_dom. rewrite (Hkeep r Hr).
  now apply elem_of_dom.
Qed.

Lemma Array_spread_fresh (s : gmap loc (list Task)) (arr : loc) (l : list Task) :
  s !! arr = Some l ->
  freshResult s (fst (Array_spread arr s)) l (snd (Array_spread arr s)).
Proof.
  intros Harr. unfold Array_spread, bind, read_array, new_array. simpl.
  rewrite Harr. simpl.
  pose proof (is_fresh (dom s)) as Hfresh.
  repeat split.
  - exact Hfresh.
  - apply lookup_insert_eq.
  - intros r Hr. apply lookup_insert_ne. intros <-. contradiction.
Qed.

Lemma Array_filter_new_fresh (s s1 : gmap loc (list Task)) (res : loc)
    (l : list Task) (p : Task -> bool) :
  freshResult s res l s1 ->
  freshResult s (fst (Array_filter_new p res s1)) (List.filter p l)
    (snd (Array_filter_new p res s1)).
Proof.
  intros Hres. pose proof Hres as (Hnew & Hl & Hkeep).
  unfold Array_filter_new, bind, read_array, new_array. simpl.
  rewrite Hl. simpl.
  pose proof (is_fresh (dom s1)) as Hfresh.
  repeat split.
  - intros Hin. apply Hfresh. eapply freshResult_dom; eauto.
  - apply lookup_insert_eq.
  - intros r Hr. rewrite lookup_insert_ne; [now apply Hkeep |].
    intros <-. apply Hfresh. eapply freshResult_dom; eauto.
Qed.

Lemma cond_filter_fresh (s s1 : gmap loc (list Task)) (res : loc)
    (l : list Task) (c : bool) (p : Task -> bool) :
  freshResult s res l s1 ->
  freshResult s
    (fst ((if c then Array_filter_new p res else ret res) s1))
    (if c then List.filter p l else l)
    (snd ((if c then Array_filter_new p res else ret res) s1)).
Proof.
  intros Hres. destruct c.
  - now apply Array_filter_new_fresh.
  - exact Hres.
Qed.

Lemma Array_sort_in_place_fresh (s s1 : gmap loc (list Task)) (res : loc)
    (l : list Task) (compareFn : Task -> Task -> Q) :
  freshResult s res l s1 ->
  fst (Array_sort_in_place compareFn res s1) = res /\
  freshResult s res (Array_sort compareFn l)
    (snd (Array_sort_in_place compareFn res s1)).
Proof.
  intros (Hnew & Hl & Hkeep).
  unfold Array_sort_in_place, bind, read_array, write_array, ret. simpl.
  rewrite Hl. simpl. split; [reflexivity |].
  repeat split.
  - exact Hnew.
  - apply lookup_insert_eq.
  - intros r Hr. rewrite lookup_insert_ne; [now apply Hkeep |].
    intros <-. contradiction.
Qed.

Lemma bind_run {A B : Type} (m : St A) (k : A -> St B) (s : gmap loc (list Task)) :
  bind m k s = k (fst (m s)) (snd (m s)).
Proof. unfold bind. now destruct (m s). Qed.

(** One conditional filter stage of the engine: the stage is named, its
    result array [rn] and store [sn] replace the previous ones. *)
Ltac cond_stage s0 sp rp Hprev rn sn Hnew :=
  rewrite bind_run;
  match goal with
  | |- context [snd (?m sp)] =>
      pose proof (cond_filter_fresh s0 sp rp _ _ _ Hprev
                  : freshResult s0 (fst (m sp)) _ (snd (m sp))) as Hnew;
      generalize dependent (snd (m sp)); generalize dependent (fst (m sp))
  end;
  intros rn sn Hnew.

Lemma status_stage_fresh (s s0 : gmap loc (list Task)) (r0 : loc)
    (ts : list Task) (filter : TaskFilter) :
  freshResult s r0 ts s0 ->
  let m :=
    match status filter with
    | status_active => Array_filter_new (fun t => negb (completed t)) r0
    | status_completed => Array_filter_new (fun t => completed t) r0
    | status_all => ret r0
    end in
  freshResult s (fst (m s0))
    (match status filter with
     | status_active => List.filter (fun t => negb (completed t)) ts
     | status_completed => List.filter (fun t => completed t) ts
     | status_all => ts
     end)
    (snd (m s0)).
Proof.
  intros H0. destruct (status filter); simpl.
  - exact H0.
  - now apply Array_filter_new_fresh.
  - now apply Array_filter_new_fresh.
Qed.

(** The store-passing engine allocates its result, and the result holds
    what [sortAndFilterTasks] computes from the contents of the input. *)
Lemma sortAndFilterTasks_st_fresh (lc : string -> string -> Z) (lw tr : string -> string)
    (s : gmap loc (list Task)) (tasks : loc) (ts : list Task)
    (filter : TaskFilter) (order : SortOrder) :
  s !! tasks = Some ts ->
  freshResult s
    (fst (sortAndFilterTasks_st lc lw tr tasks filter order s))
    (sortAndFilterTasks lc lw tr ts filter order)
    (snd (sortAndFilterTasks_st lc lw tr tasks filter order s)).
Proof.
  intros Hts. unfold sortAndFilterTasks_st, sortAndFilterTasks. cbv zeta.
  pose proof (Array_spread_fresh s tasks ts Hts) as H0.
  rewrite bind_run.
  generalize dependent (snd (Array_spread tasks s)).
  generalize dependent (fst (Array_spread tasks s)).
  intros r0 s0 H0.
  rewrite bind_run.
  pose proof (status_stage_fresh s s0 r0 ts filter H0) as H1. cbv zeta in H1.
  match goal with
  | |- context [snd (?m s0)] =>
      generalize dependent (snd (m s0)); generalize dependent (fst (m s0))
  end.
  intros r1 s1 H1.
  cond_stage s s1 r1 H1 r2 s2 H2.
  cond_stage s s2 r2 H2 r3 s3 H3.
  cond_stage s s3 r3 H3 r4 s4 H4.
  cond_stage s s4 r4 H4 r5 s5 H5.
  destruct (Array_sort_in_place_fresh s s5 r5 _ (getComparator lc order) H5)
    as [-> Hfin].
  exact Hfin.
Qed.

(** C8: the engine returns an array that did not exist before the call;
    after the call the input array holds the same tasks in the same
    order, and so does every other array that existed before. *)
Theorem C8_input_untouched :
  forall (localeCompare : string -> string -> Z)
         (toLowerCase trim : string -> string) (s : gmap loc (list Task))
         (tasks : loc) (ts : list Task) (filter : TaskFilter) (order : SortOrder),
    s !! tasks = Some ts ->
    let res := fst (sortAndFilterTasks_st localeCompare toLowerCase trim tasks filter order s) in
    let s' := snd (sortAndFilterTasks_st localeCompare toLowerCase trim tasks filter order s) in
    res <> tasks /\
    (res ∉ dom s) /\
    s' !! tasks = Some ts /\
    (forall r : loc, r ∈ dom s -> s' !! r = s !! r) /\
    s' !! res = Some (sortAndFilterTasks localeCompare toLowerCase trim ts filter order).
Proof.
  intros lc lw tr s tasks ts filter order Hts res s'.
  destruct (sortAndFilterTasks_st_fresh lc lw tr s tasks ts filter order Hts)
    as (Hnew & Hres & Hkeep).
  fold res in Hnew, Hres. fold s' in Hres, Hkeep.
  assert (Hdom : tasks ∈ dom s) by (apply elem_of_dom; now exists ts).
  repeat split.
  - intros Heq. apply Hnew. now rewrite Heq.
  - exact Hnew.
  - now rewrite (Hkeep tasks Hdom).
  - exact Hkeep.
  - exact Hres.
Qed.

Lemma C8_input_untouched_witness :
  let s : gmap loc (list Task) := {[ 1%positive := sampleTasks ]} in
  let res := fst (sortAndFilterTasks_st ordinalCompare asciiToLowerCase asciiTrim 1%positive noFilter
                    order_priority s) in
  let s' := snd (sortAndFilterTasks_st ordinalCompare asciiToLowerCase asciiTrim 1%positive noFilter
                   order_priority s) in
  res <> 1%positive /\
  (res ∉ dom s) /\
  s' !! 1%positive = Some sampleTasks /\
  (forall r : loc, r ∈ dom s -> s' !! r = s !! r) /\
  s' !! res = Some (sortAndFilterTasks ordinalCompare asciiToLowerCase asciiTrim sampleTasks noFilter
                      order_priority).
Proof.
  intros s.
  apply (C8_input_untouched ordinalCompare asciiToLowerCase asciiTrim s 1%positive sampleTasks noFilter
           order_priority).
  reflexivity.
Defined.

(** *** The smart order *)

Lemma smart_comparator_same_state (lc : string -> string -> Z) (a b : Task) :
  completed a = completed b ->
  getComparator lc order_smart a b =
  (nullish (sortScore b) 0 - nullish (sortScore a) 0)%Q.
Proof.
  intros Hab. unfold getComparator. rewrite Hab.
  now destruct (completed b).
Qed.

Ltac smart_cases x y z :=
  unfold smartLe, getComparator;
  destruct (completed x), (completed y), (completed z);
  cbn [negb Bool.eqb];
  rewrite ?Qle_bool_iff;
  try (intros; lra);
  try (intros; discriminate).

Lemma smartLe_trans (lc : string -> string -> Z) (x y z : Task) :
  smartLe lc x y -> smartLe lc y z -> smartLe lc x z.
Proof. smart_cases x y z. Qed.

Lemma smartLe_swapped (lc : string -> string -> Z) (x y : Task) :
  Qle_bool (getComparator lc order_smart x y) 0 = false -> smartLe lc y x.
Proof.
  intros H. apply not_true_iff_false in H. revert H.
  smart_cases x y x.
Qed.

Lemma smart_sorted (lc : string -> string -> Z) (lw tr : string -> string) (tasks : list Task)
    (filter : TaskFilter) :
  StronglySorted (smartLe lc) (sortAndFilterTasks lc lw tr tasks filter order_smart).
Proof.
  unfold sortAndFilterTasks. cbv zeta.
  apply Array_sort_sorted.
  - apply smartLe_trans.
  - intros x y H. exact H.
  - apply smartLe_swapped.
Qed.

(** C10: under the smart order a task without a cached score is compared
    as if its score were 0.  Against a task [b] of the same completion
    state with score [s] the comparator returns [s - 0]; in the returned
    sequence the unscored task stands after [b] when [s] is positive and
    before [b] when [s] is negative. *)
Theorem C10_absent_score_counts_as_zero :
  forall (localeCompare : string -> string -> Z)
         (toLowerCase trim : string -> string) (tasks : list Task)
         (filter : TaskFilter) (i j : nat) (a b : Task) (s : Q),
    sortAndFilterTasks localeCompare toLowerCase trim tasks filter order_smart !! i = Some a ->
    sortAndFilterTasks localeCompare toLowerCase trim tasks filter order_smart !! j = Some b ->
    completed a = completed b ->
    sortScore a = None ->
    sortScore b = Some s ->
    getComparator localeCompare order_smart a b = (s - 0)%Q /\
    getComparator localeCompare order_smart b a = (0 - s)%Q /\
    ((0 < s)%Q -> (j < i)%nat) /\
    ((s < 0)%Q -> (i < j)%nat).
Proof.
  intros lc lw tr tasks filter i j a b s Ha Hb Hstate Hnone Hsome.
  pose proof (smart_sorted lc lw tr tasks filter) as Hsorted.
  assert (Hab : getComparator lc order_smart a b = (s - 0)%Q).
  { rewrite smart_comparator_same_state by exact Hstate.
    now rewrite Hnone, Hsome. }
  assert (Hba : getComparator lc order_smart b a = (0 - s)%Q).
  { rewrite smart_comparator_same_state by (symmetry; exact Hstate).
    now rewrite Hnone, Hsome. }
  assert (Hne : i <> j).
  { intros ->. rewrite Ha in Hb. injection Hb as ->. congruence. }
  repeat split; try assumption.
  - intros Hpos.
    destruct (Nat.lt_trichotomy i j) as [Hlt | [Heq | Hgt]];
      [| contradiction | exact Hgt].
    pose proof (StronglySorted_lookup _ _ Hsorted i j a b Hlt Ha Hb) as Hle.
    unfold smartLe in Hle. rewrite Hab, Qle_bool_iff in Hle. lra.
  - intros Hneg.
    destruct (Nat.lt_trichotomy i j) as [Hlt | [Heq | Hgt]];
      [exact Hlt | contradiction |].
    pose proof (StronglySorted_lookup _ _ Hsorted j i b a Hgt Hb Ha) as Hle.
    unfold smartLe in Hle. rewrite Hba, Qle_bool_iff in Hle. lra.
Qed.

Lemma C10_absent_score_counts_as_zero_witness :
  getComparator ordinalCompare order_smart unscored scoredBelow = (-2 - 0)%Q /\
  getComparator ordinalCompare order_smart scoredBelow unscored = (0 - -2)%Q /\
  ((0 < -2)%Q -> (2 < 1)%nat) /\
  ((-2 < 0)%Q -> (1 < 2)%nat).
Proof.
  apply (C10_absent_score_counts_as_zero ordinalCompare asciiToLowerCase asciiTrim sampleTasks noFilter
           1 2 unscored scoredBelow (-2)%Q).
  - vm_compute. reflexivity.
  - vm_compute. reflexivity.
  - reflexivity.
  - reflexivity.
  - reflexivity.
Defined.

(** ** Further properties of the code *)

(** *** Whole hours against milliseconds *)

Lemma quot_nonneg_iff (a c : Z) : 0 < c -> (0 <= Z.quot a c <-> - c < a).
Proof.
  intros Hc. pose proof (Z.quot_rem' a c) as Hqr.
  destruct (Z_le_gt_dec 0 a) as [Ha | Ha].
  - pose proof (Z.rem_bound_pos a c Ha Hc) as Hr. split; intros; nia.
  - assert (Hna : 0 <= - a) by lia.
    pose proof (Z.rem_bound_pos (- a) c Hna Hc) as Hr.
    rewrite Z.rem_opp_l in Hr by lia. split; intros; nia.
Qed.

Lemma quot_neg_iff (a c : Z) : 0 < c -> (Z.quot a c < 0 <-> a <= - c).
Proof.
  intros Hc. pose proof (quot_nonneg_iff a c Hc). lia.
Qed.

Lemma quot_le_iff (a c w : Z) :
  0 < c -> 0 <= w -> (Z.quot a c <= w <-> a < (w + 1) * c).
Proof.
  intros Hc Hw. pose proof (Z.quot_rem' a c) as Hqr.
  destruct (Z_le_gt_dec 0 a) as [Ha | Ha].
  - pose proof (Z.rem_bound_pos a c Ha Hc) as Hr. split; intros; nia.
  - assert (Hna : 0 <= - a) by lia.
    pose proof (Z.rem_bound_pos (- a) c Hna Hc) as Hr.
    rewrite Z.rem_opp_l in Hr by lia. split; intros; nia.
Qed.

(** *** Overdue and due soon *)

Lemma isDueSoon_window_aux (now : Z) (task : Task) (w : Z) :
  0 <= w ->
  (isDueSoon now task w = true <->
   completed task = false /\
   now - MILLISECONDS_IN_HOUR < deadline task
     < now + (w + 1) * MILLISECONDS_IN_HOUR).
Proof.
  intros Hw. unfold isDueSoon, differenceInHours.
  assert (Hc : 0 < MILLISECONDS_IN_HOUR) by reflexivity.
  destruct (completed task).
  - split; [discriminate | intros [H _]; discriminate].
  - rewrite andb_true_iff, !Z.leb_le.
    rewrite (quot_nonneg_iff _ _ Hc), (quot_le_iff _ _ w Hc Hw).
    split; intros; repeat split; try reflexivity; lia.
Qed.

(** X1: for a window of [withinHours >= 0] whole hours, [isDueSoon] holds
    exactly for the incomplete tasks whose deadline is later than one
    hour before the clock reading and earlier than [withinHours + 1]
    hours after it. *)
Theorem isDueSoon_window :
  forall (now : Z) (task : Task) (withinHours : Z),
    0 <= withinHours ->
    (isDueSoon now task withinHours = true <->
     completed task = false /\
     now - MILLISECONDS_IN_HOUR < deadline task
       < now + (withinHours + 1) * MILLISECONDS_IN_HOUR).
Proof.
  intros now task w Hw. now apply isDueSoon_window_aux.
Qed.

Lemma isDueSoon_window_witness :
  isDueSoon 1700000000000 (dueIn 1700000000000 24 3599999) 24 = true <->
  completed (dueIn 1700000000000 24 3599999) = false /\
  1700000000000 - MILLISECONDS_IN_HOUR
    < deadline (dueIn 1700000000000 24 3599999)
    < 1700000000000 + (24 + 1) * MILLISECONDS_IN_HOUR.
Proof.
  apply (isDueSoon_window 1700000000000 (dueIn 1700000000000 24 3599999) 24).
  lia.
Defined.

(** X2: a task is flagged overdue and due soon at the same clock reading
    exactly when it is incomplete and its deadline passed less than one
    hour ago. *)
Theorem overdue_and_dueSoon :
  forall (now : Z) (task : Task) (withinHours : Z),
    0 <= withinHours ->
    (isOverdue now task && isDueSoon now task withinHours = true <->
     completed task = false /\
     now - MILLISECONDS_IN_HOUR < deadline task < now).
Proof.
  intros now task w Hw.
  rewrite andb_true_iff, (isDueSoon_window_aux now task w Hw).
  unfold isOverdue, isPast. rewrite andb_true_iff, negb_true_iff, Z.ltb_lt.
  unfold MILLISECONDS_IN_HOUR. split; intros; repeat split; try tauto; lia.
Qed.

Lemma overdue_and_dueSoon_witness :
  isOverdue 1700000000000 (dueIn 1700000000000 0 (-1800000))
  && isDueSoon 1700000000000 (dueIn 1700000000000 0 (-1800000)) 24 = true <->
  completed (dueIn 1700000000000 0 (-1800000)) = false /\
  1700000000000 - MILLISECONDS_IN_HOUR
    < deadline (dueIn 1700000000000 0 (-1800000)) < 1700000000000.
Proof.
  apply (overdue_and_dueSoon 1700000000000
           (dueIn 1700000000000 0 (-1800000)) 24).
  lia.
Defined.

(** *** Deadline colours *)

(** X3: for an incomplete task with a valid deadline [d] the colour is
    the overdue red exactly when the deadline passed at least one hour
    ago, the critical colour from less than one hour overdue up to less
    than three hours ahead, the warning colour from three up to less than
    twenty-four hours ahead, and the normal grey from then on. *)
Theorem getDeadlineColor_thresholds :
  forall (now d : Z),
    (getDeadlineColor now (Some d) false = "#EF4444" <->
     d <= now - MILLISECONDS_IN_HOUR) /\
    (getDeadlineColor now (Some d) false = "#FF3366" <->
     now - MILLISECONDS_IN_HOUR < d < now + 3 * MILLISECONDS_IN_HOUR) /\
    (getDeadlineColor now (Some d) false = "#F59E0B" <->
     now + 3 * MILLISECONDS_IN_HOUR <= d < now + 24 * MILLISECONDS_IN_HOUR) /\
    (getDeadlineColor now (Some d) false = "#9CA3AF" <->
     now + 24 * MILLISECONDS_IN_HOUR <= d).
Proof.
  intros now d. unfold getDeadlineColor, differenceInHours.
  assert (Hc : 0 < MILLISECONDS_IN_HOUR) by reflexivity.
  pose proof (quot_neg_iff (d - now) _ Hc) as H0.
  pose proof (quot_le_iff (d - now) _ 2 Hc ltac:(lia)) as H3.
  pose proof (quot_le_iff (d - now) _ 23 Hc ltac:(lia)) as H24.
  destruct (Z.ltb_spec (Z.quot (d - now) MILLISECONDS_IN_HOUR) 0) as [L0 | L0];
    [| destruct (Z.ltb_spec (Z.quot (d - now) MILLISECONDS_IN_HOUR) 3)
         as [L3 | L3];
       [| destruct (Z.ltb_spec (Z.quot (d - now) MILLISECONDS_IN_HOUR) 24)
            as [L24 | L24]]];
    repeat split; intros; try discriminate; try reflexivity; lia.
Qed.

(** *** What each comparator orders by *)

Lemma Qle_bool_inject_Z (z : Z) : Qle_bool (inject_Z z) 0 = (z <=? 0).
Proof. unfold Qle_bool. simpl. now rewrite Z.mul_1_r. Qed.

Lemma comparatorLe_smart (lc : string -> string -> Z) (a b : Task) :
  comparatorLe lc order_smart a b <->
  (completed a = false /\ completed b = true) \/
  (completed a = completed b /\
   (nullish (sortScore b) 0 <= nullish (sortScore a) 0)%Q).
Proof.
  unfold comparatorLe, getComparator.
  destruct (completed a), (completed b); cbn [negb Bool.eqb];
    rewrite ?Qle_bool_iff; split;
    try (intros [[? ?] | [? ?]]; try discriminate; lra);
    try (intros H; right; split; [reflexivity | lra]);
    try (intros _; left; split; reflexivity);
    try (intros H; vm_compute in H; contradiction).
Qed.

Lemma comparatorLe_deadline (lc : string -> string -> Z) (a b : Task) :
  comparatorLe lc order_deadline a b <->
  (completed a = false /\ completed b = true) \/
  (completed a = completed b /\ deadline a <= deadline b).
Proof.
  unfold comparatorLe, getComparator.
  destruct (completed a), (completed b); cbn [negb Bool.eqb];
    rewrite ?Qle_bool_inject_Z, ?Z.leb_le; split;
    try (intros [[? ?] | [? ?]]; try discriminate; try reflexivity; lia);
    try (intros H; right; split; [reflexivity | lia]);
    try (intros _; left; split; reflexivity);
    try (intros H; discriminate H).
Qed.

Lemma comparatorLe_createdAt (lc : string -> string -> Z) (a b : Task) :
  comparatorLe lc order_createdAt a b <->
  (completed a = false /\ completed b = true) \/
  (completed a = completed b /\ createdAt b <= createdAt a).
Proof.
  unfold comparatorLe, getComparator.
  destruct (completed a), (completed b); cbn [negb Bool.eqb];
    rewrite ?Qle_bool_inject_Z, ?Z.leb_le; split;
    try (intros [[? ?] | [? ?]]; try discriminate; try reflexivity; lia);
    try (intros H; right; split; [reflexivity | lia]);
    try (intros _; left; split; reflexivity);
    try (intros H; discriminate H).
Qed.

Lemma comparatorLe_priority (lc : string -> string -> Z) (a b : Task) :
  comparatorLe lc order_priority a b <->
  (completed a = false /\ completed b = true) \/
  (completed a = completed b /\
   (PRIORITY_WEIGHTS (priority b) < PRIORITY_WEIGHTS (priority a) \/
    (PRIORITY_WEIGHTS (priority b) = PRIORITY_WEIGHTS (priority a) /\
     deadline a <= deadline b))).
Proof.
  unfold comparatorLe, getComparator.
  destruct (Z.eqb_spec
              (PRIORITY_WEIGHTS (priority b) - PRIORITY_WEIGHTS (priority a)) 0)
    as [Hw | Hw];
    destruct (completed a), (completed b); cbn [negb Bool.eqb];
    rewrite ?Qle_bool_inject_Z, ?Z.leb_le; split;
    try (intros [[? ?] | [? ?]]; try discriminate; try reflexivity; lia);
    try (intros H; right; split; [reflexivity | lia]);
    try (intros _; left; split; reflexivity);
    try (intros H; discriminate H).
Qed.

(** The comparators of the four orders that do not go through the
    collation of the host are transitive and total. *)
Lemma comparatorLe_trans (lc : string -> string -> Z) (order : SortOrder)
    (x y z : Task) :
  order <> order_alpha ->
  comparatorLe lc order x y -> comparatorLe lc order y z ->
  comparatorLe lc order x z.
Proof.
  intros Ho. destruct order; try contradiction.
  - rewrite !comparatorLe_smart.
    destruct (completed x), (completed y), (completed z);
      intros [[? ?] | [? ?]] [[? ?] | [? ?]]; try discriminate;
      (left; split; reflexivity) || (right; split; [reflexivity | lra]).
  - rewrite !comparatorLe_deadline.
    destruct (completed x), (completed y), (completed z);
      intros [[? ?] | [? ?]] [[? ?] | [? ?]]; try discriminate;
      (left; split; reflexivity) || (right; split; [reflexivity | lia]).
  - rewrite !comparatorLe_priority.
    destruct (completed x), (completed y), (completed z);
      intros [[? ?] | [? ?]] [[? ?] | [? ?]]; try discriminate;
      (left; split; reflexivity) || (right; split; [reflexivity | lia]).
  - rewrite !comparatorLe_createdAt.
    destruct (completed x), (completed y), (completed z);
      intros [[? ?] | [? ?]] [[? ?] | [? ?]]; try discriminate;
      (left; split; reflexivity) || (right; split; [reflexivity | lia]).
Qed.

Lemma comparatorLe_total (lc : string -> string -> Z) (order : SortOrder)
    (x y : Task) :
  order <> order_alpha ->
  Qle_bool (getComparator lc order x y) 0 = false ->
  comparatorLe lc order y x.
Proof.
  intros Ho. unfold comparatorLe, getComparator.
  destruct order; try contradiction.
  - destruct (completed x), (completed y); cbn [negb Bool.eqb];
      rewrite <- not_true_iff_false, !Qle_bool_iff; intros; lra.
  - destruct (completed x), (completed y); cbn [negb Bool.eqb];
      try (intros; reflexivity); try discriminate;
      rewrite !Qle_bool_inject_Z, Z.leb_gt, Z.leb_le; lia.
  - destruct (Z.eqb_spec
                (PRIORITY_WEIGHTS (priority y) - PRIORITY_WEIGHTS (priority x)) 0),
             (Z.eqb_spec
                (PRIORITY_WEIGHTS (priority x) - PRIORITY_WEIGHTS (priority y)) 0);
      destruct (completed x), (completed y); cbn [negb Bool.eqb];
      try (intros; reflexivity); try discriminate;
      rewrite !Qle_bool_inject_Z, Z.leb_gt, Z.leb_le; lia.
  - destruct (completed x), (completed y); cbn [negb Bool.eqb];
      try (intros; reflexivity); try discriminate;
      rewrite !Qle_bool_inject_Z, Z.leb_gt, Z.leb_le; lia.
Qed.

Lemma engine_sorted (lc : string -> string -> Z) (lw tr : string -> string) (tasks : list Task)
    (filter : TaskFilter) (order : SortOrder) :
  order <> order_alpha ->
  StronglySorted (comparatorLe lc order)
    (sortAndFilterTasks lc lw tr tasks filter order).
Proof.
  intros Ho. unfold sortAndFilterTasks. cbv zeta.
  apply Array_sort_sorted.
  - intros x y z. now apply comparatorLe_trans.
  - intros x y H. exact H.
  - intros x y. now apply comparatorLe_total.
Qed.

Lemma engine_order_lookup (lc : string -> string -> Z) (lw tr : string -> string) (tasks : list Task)
    (filter : TaskFilter) (order : SortOrder) (i j : nat) (a b : Task) :
  order <> order_alpha ->
  (i < j)%nat ->
  sortAndFilterTasks lc lw tr tasks filter order !! i = Some a ->
  sortAndFilterTasks lc lw tr tasks filter order !! j = Some b ->
  comparatorLe lc order a b.
Proof.
  intros Ho Hij Ha Hb.
  exact (StronglySorted_lookup _ _ (engine_sorted lc lw tr tasks filter order Ho)
           i j a b Hij Ha Hb).
Qed.

(** X4: under the priority order, of two returned tasks in the same
    completion state the earlier one has the higher or equal priority
    weight, and with equal priorities the earlier or equal deadline. *)
Theorem priority_order_sorted :
  forall (localeCompare : string -> string -> Z)
         (toLowerCase trim : string -> string) (tasks : list Task)
         (filter : TaskFilter) (i j : nat) (a b : Task),
    (i < j)%nat ->
    sortAndFilterTasks localeCompare toLowerCase trim tasks filter order_priority !! i = Some a ->
    sortAndFilterTasks localeCompare toLowerCase trim tasks filter order_priority !! j = Some b ->
    completed a = completed b ->
    PRIORITY_WEIGHTS (priority b) <= PRIORITY_WEIGHTS (priority a) /\
    (priority a = priority b -> deadline a <= deadline b).
Proof.
  intros lc lw tr tasks filter i j a b Hij Ha Hb Hc.
  assert (Ho : order_priority <> order_alpha) by discriminate.
  pose proof (engine_order_lookup lc lw tr tasks filter _ i j a b Ho Hij Ha Hb) as Hle.
  apply comparatorLe_priority in Hle.
  destruct Hle as [[Hca Hcb] | [_ Hle]]; [congruence |].
  split; [lia |]. intros Hp. rewrite Hp in Hle. lia.
Qed.

Lemma priority_order_sorted_witness :
  PRIORITY_WEIGHTS (priority unscored) <= PRIORITY_WEIGHTS (priority scoredHigh) /\
  (priority scoredHigh = priority unscored ->
   deadline scoredHigh <= deadline unscored).
Proof.
  apply (priority_order_sorted ordinalCompare asciiToLowerCase asciiTrim sampleTasks noFilter 0 1
           scoredHigh unscored).
  - lia.
  - vm_compute. reflexivity.
  - vm_compute. reflexivity.
  - reflexivity.
Defined.

(** X5: under the deadline order, of two returned tasks in the same
    completion state the earlier one has the earlier or equal deadline. *)
Theorem deadline_order_sorted :
  forall (localeCompare : string -> string -> Z)
         (toLowerCase trim : string -> string) (tasks : list Task)
         (filter : TaskFilter) (i j : nat) (a b : Task),
    (i < j)%nat ->
    sortAndFilterTasks localeCompare toLowerCase trim tasks filter order_deadline !! i = Some a ->
    sortAndFilterTasks localeCompare toLowerCase trim tasks filter order_deadline !! j = Some b ->
    completed a = completed b ->
    deadline a <= deadline b.
Proof.
  intros lc lw tr tasks filter i j a b Hij Ha Hb Hc.
  assert (Ho : order_deadline <> order_alpha) by discriminate.
  pose proof (engine_order_lookup lc lw tr tasks filter _ i j a b Ho Hij Ha Hb) as Hle.
  apply comparatorLe_deadline in Hle.
  destruct Hle as [[Hca Hcb] | [_ Hle]]; [congruence | exact Hle].
Qed.

Lemma deadline_order_sorted_witness :
  deadline unscored <= deadline scoredHigh.
Proof.
  apply (deadline_order_sorted ordinalCompare asciiToLowerCase asciiTrim sampleTasks noFilter 0 1
           unscored scoredHigh).
  - lia.
  - vm_compute. reflexivity.
  - vm_compute. reflexivity.
  - reflexivity.
Defined.

(** X6: under the createdAt order, of two returned tasks in the same
    completion state the earlier one was created later or at the same
    instant. *)
Theorem createdAt_order_sorted :
  forall (localeCompare : string -> string -> Z)
         (toLowerCase trim : string -> string) (tasks : list Task)
         (filter : TaskFilter) (i j : nat) (a b : Task),
    (i < j)%nat ->
    sortAndFilterTasks localeCompare toLowerCase trim tasks filter order_createdAt !! i = Some a ->
    sortAndFilterTasks localeCompare toLowerCase trim tasks filter order_createdAt !! j = Some b ->
    completed a = completed b ->
    createdAt b <= createdAt a.
Proof.
  intros lc lw tr tasks filter i j a b Hij Ha Hb Hc.
  assert (Ho : order_createdAt <> order_alpha) by discriminate.
  pose proof (engine_order_lookup lc lw tr tasks filter _ i j a b Ho Hij Ha Hb) as Hle.
  apply comparatorLe_createdAt in Hle.
  destruct Hle as [[Hca Hcb] | [_ Hle]]; [congruence | exact Hle].
Qed.

Lemma createdAt_order_sorted_witness :
  createdAt scoredBelow <= createdAt unscored.
Proof.
  apply (createdAt_order_sorted ordinalCompare asciiToLowerCase asciiTrim sampleTasks noFilter 0 1
           unscored scoredBelow).
  - lia.
  - vm_compute. reflexivity.
  - vm_compute. reflexivity.
  - reflexivity.
Defined.

(** X7: under the smart order, of two returned tasks in the same
    completion state the earlier one has the higher or equal cached
    score, an absent score counting as 0. *)
Theorem smart_order_sorted :
  forall (localeCompare : string -> string -> Z)
         (toLowerCase trim : string -> string) (tasks : list Task)
         (filter : TaskFilter) (i j : nat) (a b : Task),
    (i < j)%nat ->
    sortAndFilterTasks localeCompare toLowerCase trim tasks filter order_smart !! i = Some a ->
    sortAndFilterTasks localeCompare toLowerCase trim tasks filter order_smart !! j = Some b ->
    completed a = completed b ->
    (nullish (sortScore b) 0 <= nullish (sortScore a) 0)%Q.
Proof.
  intros lc lw tr tasks filter i j a b Hij Ha Hb Hc.
  assert (Ho : order_smart <> order_alpha) by discriminate.
  pose proof (engine_order_lookup lc lw tr tasks filter _ i j a b Ho Hij Ha Hb) as Hle.
  apply comparatorLe_smart in Hle.
  destruct Hle as [[Hca Hcb] | [_ Hle]]; [congruence | exact Hle].
Qed.

Lemma smart_order_sorted_witness :
  (nullish (sortScore scoredBelow) 0 <= nullish (sortScore scoredHigh) 0)%Q.
Proof.
  apply (smart_order_sorted ordinalCompare asciiToLowerCase asciiTrim sampleTasks noFilter 0 2
           scoredHigh scoredBelow).
  - lia.
  - vm_compute. reflexivity.
  - vm_compute. reflexivity.
  - reflexivity.
Defined.

(** X8: the comparators of the smart, deadline, priority and createdAt
    orders are antisymmetric: exchanging the arguments negates the
    result. *)
Theorem comparator_antisymmetric :
  forall (localeCompare : string -> string -> Z) (a b : Task),
    (getComparator localeCompare order_smart a b
     == - getComparator localeCompare order_smart b a)%Q /\
    (getComparator localeCompare order_deadline a b
     == - getComparator localeCompare order_deadline b a)%Q /\
    (getComparator localeCompare order_priority a b
     == - getComparator localeCompare order_priority b a)%Q /\
    (getComparator localeCompare order_createdAt a b
     == - getComparator localeCompare order_createdAt b a)%Q.
Proof.
  intros lc a b. unfold getComparator.
  destruct (Z.eqb_spec
              (PRIORITY_WEIGHTS (priority b) - PRIORITY_WEIGHTS (priority a)) 0),
           (Z.eqb_spec
              (PRIORITY_WEIGHTS (priority a) - PRIORITY_WEIGHTS (priority b)) 0);
    try lia;
    destruct (completed a), (completed b); cbn [negb Bool.eqb];
    repeat split; try reflexivity; try ring;
    unfold Qeq, inject_Z; simpl; lia.
Qed.

(** *** The engine as one filter followed by the sort *)

Lemma filter_true {A : Type} (l : list A) : List.filter (fun _ => true) l = l.
Proof.
  induction l as [| x l IH]; simpl; [reflexivity | now rewrite IH].
Qed.

Lemma cond_filter_eq {A : Type} (c : bool) (p : A -> bool) (l : list A) :
  (if c then List.filter p l else l) = List.filter (fun x => implb c (p x)) l.
Proof.
  destruct c; simpl.
  - reflexivity.
  - symmetry. apply filter_true.
Qed.

Lemma filter_fuse {A : Type} (p q : A -> bool) (l : list A) :
  List.filter p (List.filter q l) = List.filter (fun x => q x && p x) l.
Proof.
  induction l as [| x l IH]; simpl; [reflexivity |].
  destruct (q x); simpl; [destruct (p x) |]; now rewrite IH.
Qed.

Lemma filter_all {A : Type} (p : A -> bool) (l : list A) :
  (forall x, In x l -> p x = true) -> List.filter p l = l.
Proof.
  induction l as [| x l IH]; simpl; intros H; [reflexivity |].
  rewrite (H x) by now left. f_equal. apply IH. intros y Hy. apply H. now right.
Qed.

Lemma engine_as_filter (lc : string -> string -> Z) (lw tr : string -> string) (tasks : list Task)
    (f : TaskFilter) (order : SortOrder) :
  sortAndFilterTasks lc lw tr tasks f order =
  Array_sort (getComparator lc order) (List.filter (passesAll lw tr f) tasks).
Proof.
  unfold sortAndFilterTasks. cbv zeta. f_equal.
  rewrite !cond_filter_eq.
  replace (match status f with
           | status_all => tasks
           | status_active => List.filter (fun t => negb (completed t)) tasks
           | status_completed => List.filter (fun t => completed t) tasks
           end)
    with (List.filter
            (fun t => match status f with
                      | status_active => negb (completed t)
                      | status_completed => completed t
                      | status_all => true
                      end) tasks)
    by (destruct (status f); [apply filter_true | reflexivity | reflexivity]).
  rewrite !filter_fuse. apply List.filter_ext. intros t.
  unfold passesAll. now rewrite !andb_assoc.
Qed.

Lemma engine_member (lc : string -> string -> Z) (lw tr : string -> string) (tasks : list Task)
    (f : TaskFilter) (order : SortOrder) (t : Task) :
  In t (sortAndFilterTasks lc lw tr tasks f order) <->
  In t tasks /\ passesAll lw tr f t = true.
Proof.
  rewrite engine_as_filter, In_Array_sort. apply filter_In.
Qed.

(** A sequence that is in the order of the comparator is left as it is by
    the sort. *)
Lemma Array_sort_fixed {A : Type} (compareFn : A -> A -> Q) (l : list A) :
  StronglySorted (fun a b => Qle_bool (compareFn a b) 0 = true) l ->
  Array_sort compareFn l = l.
Proof.
  induction 1 as [| x l Hl IH Hx]; simpl; [reflexivity |].
  rewrite IH. destruct l as [| y l']; simpl; [reflexivity |].
  rewrite List.Forall_forall in Hx. now rewrite (Hx y) by now left.
Qed.

(** X9: after [resetFilter] the engine drops no task: for every sort
    order the sequence it returns is a rearrangement of the tasks of the
    state.  This holds with the ASCII instance of the text methods, and
    with every host whose [trim] leaves the empty string empty. *)
Theorem reset_filter_shows_all :
  forall (localeCompare : string -> string -> Z)
         (toLowerCase trim : string -> string) (state : TasksState)
         (order : SortOrder),
    Permutation
      (sortAndFilterTasks localeCompare asciiToLowerCase asciiTrim
         (st_tasks state)
         (st_filter (tasksSlice.reducer state tasksSlice.resetFilter)) order)
      (st_tasks state) /\
    (trim "" = "" ->
     Permutation
       (sortAndFilterTasks localeCompare toLowerCase trim (st_tasks state)
          (st_filter (tasksSlice.reducer state tasksSlice.resetFilter)) order)
       (st_tasks state)).
Proof.
  intros lc lw tr state order. split.
  - rewrite engine_as_filter. simpl st_filter.
    rewrite filter_all by (intros x _; reflexivity).
    apply Array_sort_perm.
  - intros Hempty. rewrite engine_as_filter. simpl st_filter.
    rewrite filter_all; [apply Array_sort_perm |].
    intros x _. unfold passesAll. simpl. now rewrite Hempty.
Qed.

Lemma trimStart_allWhiteSpace (s : string) :
  allWhiteSpace s = true -> trimStart s = "".
Proof.
  induction s as [| c s IH]; simpl; [reflexivity |].
  intros H. apply andb_true_iff in H as [Hc Hs]. rewrite Hc. now apply IH.
Qed.

Lemma trim_allWhiteSpace (s : string) :
  allWhiteSpace s = true -> asciiTrim s = "".
Proof.
  intros H. unfold asciiTrim. now rewrite trimStart_allWhiteSpace.
Qed.

(** X10: a search query made of white space only filters nothing: the
    engine returns what it returns for the empty query.  This holds with
    the ASCII instance of the text methods, and with every host whose
    [trim] reduces a string of white space to the empty string. *)
Theorem blank_search_is_no_search :
  forall (localeCompare : string -> string -> Z)
         (toLowerCase trim : string -> string) (tasks : list Task)
         (state : TasksState) (query : string) (order : SortOrder),
    allWhiteSpace query = true ->
    sortAndFilterTasks localeCompare asciiToLowerCase asciiTrim tasks
      (st_filter (tasksSlice.reducer state (tasksSlice.setSearchQuery query)))
      order =
    sortAndFilterTasks localeCompare asciiToLowerCase asciiTrim tasks
      (st_filter (tasksSlice.reducer state (tasksSlice.setSearchQuery "")))
      order /\
    ((forall s, allWhiteSpace s = true -> trim s = "") ->
     sortAndFilterTasks localeCompare toLowerCase trim tasks
       (st_filter (tasksSlice.reducer state (tasksSlice.setSearchQuery query)))
       order =
     sortAndFilterTasks localeCompare toLowerCase trim tasks
       (st_filter (tasksSlice.reducer state (tasksSlice.setSearchQuery "")))
       order).
Proof.
  intros lc lw tr tasks state query order Hws.
  assert (Hgen : forall lw' tr' : string -> string,
             (forall s, allWhiteSpace s = true -> tr' s = "") ->
             sortAndFilterTasks lc lw' tr' tasks
               (st_filter (tasksSlice.reducer state
                             (tasksSlice.setSearchQuery query))) order =
             sortAndFilterTasks lc lw' tr' tasks
               (st_filter (tasksSlice.reducer state
                             (tasksSlice.setSearchQuery ""))) order).
  { intros lw' tr' Htrim.
    rewrite !engine_as_filter. f_equal. apply List.filter_ext. intros t.
    unfold passesAll. simpl.
    now rewrite (Htrim query Hws), (Htrim "" eq_refl). }
  split.
  - apply Hgen. exact trim_allWhiteSpace.
  - apply Hgen.
Qed.

Lemma blank_search_is_no_search_witness :
  sortAndFilterTasks ordinalCompare asciiToLowerCase asciiTrim sampleTasks
    (st_filter (tasksSlice.reducer tasksSlice.initialState
                  (tasksSlice.setSearchQuery "   ")))
    order_deadline =
  sortAndFilterTasks ordinalCompare asciiToLowerCase asciiTrim sampleTasks
    (st_filter (tasksSlice.reducer tasksSlice.initialState
                  (tasksSlice.setSearchQuery "")))
    order_deadline /\
  ((forall s, allWhiteSpace s = true -> asciiTrim s = "") ->
   sortAndFilterTasks ordinalCompare asciiToLowerCase asciiTrim sampleTasks
     (st_filter (tasksSlice.reducer tasksSlice.initialState
                   (tasksSlice.setSearchQuery "   ")))
     order_deadline =
   sortAndFilterTasks ordinalCompare asciiToLowerCase asciiTrim sampleTasks
     (st_filter (tasksSlice.reducer tasksSlice.initialState
                   (tasksSlice.setSearchQuery "")))
     order_deadline).
Proof.
  apply (blank_search_is_no_search ordinalCompare asciiToLowerCase asciiTrim
           sampleTasks tasksSlice.initialState "   " order_deadline).
  reflexivity.
Defined.

Lemma filter_none {A : Type} (p : A -> bool) (l : list A) :
  (forall x, In x l -> p x = false) -> List.filter p l = [].
Proof.
  induction l as [| x l IH]; simpl; intros H; [reflexivity |].
  rewrite (H x) by now left. apply IH. intros y Hy. apply H. now right.
Qed.

(** X11: a priority restriction that is neither ["all"] nor the name of a
    priority level empties the result. *)
Theorem unknown_priority_shows_nothing :
  forall (localeCompare : string -> string -> Z)
         (toLowerCase trim : string -> string) (tasks : list Task)
         (filter : TaskFilter) (order : SortOrder),
    f_priority filter <> "all" ->
    (forall p : Priority, Priority_str p <> f_priority filter) ->
    sortAndFilterTasks localeCompare toLowerCase trim tasks filter order = [].
Proof.
  intros lc lw tr tasks filter order Hall Hnone.
  rewrite engine_as_filter, filter_none; [reflexivity |].
  intros t _. unfold passesAll.
  apply String.eqb_neq in Hall. rewrite Hall.
  pose proof (Hnone (priority t)) as Hp. apply String.eqb_neq in Hp.
  rewrite Hp. simpl. now rewrite andb_false_r.
Qed.

Lemma unknown_priority_shows_nothing_witness :
  sortAndFilterTasks ordinalCompare asciiToLowerCase asciiTrim sampleTasks
    {| status := status_all; f_priority := "High"; f_category := "all";
       searchQuery := ""; tag := None |} order_smart = [].
Proof.
  apply (unknown_priority_shows_nothing ordinalCompare asciiToLowerCase asciiTrim sampleTasks
           {| status := status_all; f_priority := "High"; f_category := "all";
              searchQuery := ""; tag := None |} order_smart).
  - simpl. discriminate.
  - intros p. destruct p; simpl; discriminate.
Defined.

(** X12: for the smart, deadline, priority and createdAt orders, running
    the engine on its own result with the same filter and order returns
    that result unchanged. *)
Theorem engine_idempotent :
  forall (localeCompare : string -> string -> Z)
         (toLowerCase trim : string -> string) (tasks : list Task)
         (filter : TaskFilter) (order : SortOrder),
    order <> order_alpha ->
    sortAndFilterTasks localeCompare toLowerCase trim
      (sortAndFilterTasks localeCompare toLowerCase trim tasks filter order) filter order =
    sortAndFilterTasks localeCompare toLowerCase trim tasks filter order.
Proof.
  intros lc lw tr tasks filter order Ho.
  rewrite (engine_as_filter lc lw tr (sortAndFilterTasks lc lw tr tasks filter order)).
  rewrite filter_all by (intros t Ht; now apply engine_member in Ht).
  apply Array_sort_fixed. now apply engine_sorted.
Qed.

Lemma engine_idempotent_witness :
  sortAndFilterTasks ordinalCompare asciiToLowerCase asciiTrim
    (sortAndFilterTasks ordinalCompare asciiToLowerCase asciiTrim sampleTasks noFilter order_priority)
    noFilter order_priority =
  sortAndFilterTasks ordinalCompare asciiToLowerCase asciiTrim sampleTasks noFilter order_priority.
Proof.
  apply (engine_idempotent ordinalCompare asciiToLowerCase asciiTrim sampleTasks noFilter order_priority).
  discriminate.
Defined.

Lemma lower_ascii_idem (c : ascii) : lower_ascii (lower_ascii c) = lower_ascii c.
Proof.
  destruct c as [[] [] [] [] [] [] [] []]; reflexivity.
Qed.

Lemma toLowerCase_idem (s : string) :
  asciiToLowerCase (asciiToLowerCase s) = asciiToLowerCase s.
Proof.
  induction s as [| c s IH]; simpl; [reflexivity |].
  now rewrite lower_ascii_idem, IH.
Qed.

Lemma truthy_toLowerCase (s : string) :
  truthy (asciiToLowerCase s) = truthy s.
Proof. now destruct s. Qed.

(** X13: the search does not depend on the case of the query: two
    queries with the same lower-case form give the same result.  This
    holds with the ASCII instance of the text methods, and with every
    host whose [toLowerCase] commutes with [trim] and maps only the empty
    string to the empty string. *)
Theorem search_ignores_query_case :
  forall (localeCompare : string -> string -> Z)
         (toLowerCase trim : string -> string) (tasks : list Task)
         (state : TasksState) (q1 q2 : string) (order : SortOrder),
    (asciiToLowerCase q1 = asciiToLowerCase q2 ->
     sortAndFilterTasks localeCompare asciiToLowerCase asciiTrim tasks
       (st_filter (tasksSlice.reducer state (tasksSlice.setSearchQuery q1)))
       order =
     sortAndFilterTasks localeCompare asciiToLowerCase asciiTrim tasks
       (st_filter (tasksSlice.reducer state (tasksSlice.setSearchQuery q2)))
       order) /\
    ((forall s, trim (toLowerCase s) = toLowerCase (trim s)) ->
     (forall s, truthy (toLowerCase s) = truthy s) ->
     toLowerCase q1 = toLowerCase q2 ->
     sortAndFilterTasks localeCompare toLowerCase trim tasks
       (st_filter (tasksSlice.reducer state (tasksSlice.setSearchQuery q1)))
       order =
     sortAndFilterTasks localeCompare toLowerCase trim tasks
       (st_filter (tasksSlice.reducer state (tasksSlice.setSearchQuery q2)))
       order).
Proof.
  intros lc lw tr tasks state q1 q2 order.
  assert (Hgen : forall lw' tr' : string -> string,
             (forall s, tr' (lw' s) = lw' (tr' s)) ->
             (forall s, truthy (lw' s) = truthy s) ->
             lw' q1 = lw' q2 ->
             sortAndFilterTasks lc lw' tr' tasks
               (st_filter (tasksSlice.reducer state
                             (tasksSlice.setSearchQuery q1))) order =
             sortAndFilterTasks lc lw' tr' tasks
               (st_filter (tasksSlice.reducer state
                             (tasksSlice.setSearchQuery q2))) order).
  { intros lw' tr' Hcomm Htruthy Hq.
    assert (Ht : truthy (tr' q1) = truthy (tr' q2)).
    { rewrite <- (Htruthy (tr' q1)), <- (Htruthy (tr' q2)).
      now rewrite <- !Hcomm, Hq. }
    rewrite !engine_as_filter. f_equal. apply List.filter_ext. intros t.
    unfold passesAll. simpl. now rewrite Ht, Hq. }
  split.
  - apply Hgen; [exact trim_toLowerCase | exact truthy_toLowerCase].
  - apply Hgen.
Qed.

Lemma search_ignores_query_case_witness :
  sortAndFilterTasks ordinalCompare asciiToLowerCase asciiTrim sampleTasks
    (st_filter (tasksSlice.reducer tasksSlice.initialState
                  (tasksSlice.setSearchQuery "REPORT")))
    order_smart =
  sortAndFilterTasks ordinalCompare asciiToLowerCase asciiTrim sampleTasks
    (st_filter (tasksSlice.reducer tasksSlice.initialState
                  (tasksSlice.setSearchQuery "Report")))
    order_smart.
Proof.
  apply (proj1 (search_ignores_query_case ordinalCompare asciiToLowerCase
                  asciiTrim sampleTasks tasksSlice.initialState "REPORT"
                  "Report" order_smart)).
  reflexivity.
Defined.

(** *** Further properties of the score *)

Lemma ageBoost_antitone (now c1 c2 : Z) :
  c1 <= c2 -> (ageBoost now c2 <= ageBoost now c1)%R.
Proof.
  intros Hc. unfold ageBoost.
  assert (Hh : differenceInHours now c2 <= differenceInHours now c1).
  { unfold differenceInHours, MILLISECONDS_IN_HOUR.
    apply Z.quot_le_mono; lia. }
  apply IZR_le in Hh. change (30 * 24) with 720.
  apply Rmin_glb; [| apply Rmin_r].
  eapply Rle_trans; [apply Rmin_l |].
  apply Rmult_le_compat_r; [lra | exact Hh].
Qed.

Lemma ageBoost_saturated (now c : Z) :
  c <= now - 720 * MILLISECONDS_IN_HOUR -> ageBoost now c = 1%R.
Proof.
  intros Hc. unfold ageBoost.
  assert (Hh : 720 <= differenceInHours now c).
  { change 720 with (Z.quot (720 * MILLISECONDS_IN_HOUR) MILLISECONDS_IN_HOUR)
      at 1.
    unfold differenceInHours. apply Z.quot_le_mono; [reflexivity | lia]. }
  apply IZR_le in Hh. change (30 * 24) with 720.
  rewrite Rmin_right; lra.
Qed.

(** X14: the score never exceeds 10, for every task and all clock
    readings. *)
Theorem score_at_most_10 :
  forall (nowD nowA : Z) (task : Task),
    (calculateSmartScore nowD nowA task <= 10)%Q.
Proof.
  intros nowD nowA task. destruct (completed task) eqn:Hc.
  - unfold calculateSmartScore. rewrite Hc. discriminate.
  - rewrite (score_incomplete _ _ _ Hc).
    pose proof (priorityNorm_range (priority task)) as Hp.
    pose proof (deadlineUrgency_range nowD (deadline task)) as Hd.
    pose proof (ageBoost_le_1 nowA (createdAt task)) as Ha.
    apply Qle_trans with (parseFloat4 100000); [| discriminate].
    apply parseFloat4_le.
    rewrite <- (toFixed4_exact 100000). apply toFixed4_mono. lra.
Qed.

(** X15: for an incomplete task whose creation instant is not after the
    clock reading, the score lies between 1 and 10. *)
Theorem score_between_1_and_10 :
  forall (nowD nowA : Z) (task : Task),
    completed task = false ->
    createdAt task <= nowA ->
    (1 <= calculateSmartScore nowD nowA task <= 10)%Q.
Proof.
  intros nowD nowA task Hc Hpast.
  now apply score_range_created_in_past.
Qed.

Lemma score_between_1_and_10_witness :
  (1 <= calculateSmartScore 1700000000000 1700000000002
          (dueIn 1700000000000 24 0) <= 10)%Q.
Proof.
  apply (score_between_1_and_10 1700000000000 1700000000002
           (dueIn 1700000000000 24 0)).
  - reflexivity.
  - simpl. unfold MILLISECONDS_IN_HOUR. lia.
Defined.

(** X16: a task created at least 720 hours before the clock reading has
    the full age component 1; if it is also incomplete, of critical
    priority and its deadline is not after the clock reading, its score
    is 10. *)
Theorem old_critical_overdue_scores_10 :
  forall (nowD nowA : Z) (task : Task),
    createdAt task <= nowA - 720 * MILLISECONDS_IN_HOUR ->
    ageBoost nowA (createdAt task) = 1%R /\
    (completed task = false -> priority task = critical ->
     deadline task <= nowD ->
     (calculateSmartScore nowD nowA task == 10)%Q).
Proof.
  intros nowD nowA task Hold.
  pose proof (ageBoost_saturated nowA (createdAt task) Hold) as Hage.
  split; [exact Hage |].
  intros Hc Hp Hd. rewrite (score_incomplete _ _ _ Hc).
  rewrite Hage, Hp, (deadlineUrgency_overdue nowD (deadline task) Hd).
  replace (toFixed4 _) with 100000; [reflexivity |].
  rewrite <- (toFixed4_exact 100000). f_equal. simpl. lra.
Qed.

Lemma old_critical_overdue_scores_10_witness :
  ageBoost 1700000000000 (createdAt (sample "9" "File taxes" critical false 0 None))
  = 1%R /\
  (completed (sample "9" "File taxes" critical false 0 None) = false ->
   priority (sample "9" "File taxes" critical false 0 None) = critical ->
   deadline (sample "9" "File taxes" critical false 0 None) <= 1700000000000 ->
   (calculateSmartScore 1700000000000 1700000000000
      (sample "9" "File taxes" critical false 0 None) == 10)%Q).
Proof.
  apply (old_critical_overdue_scores_10 1700000000000 1700000000000
           (sample "9" "File taxes" critical false 0 None)).
  simpl. unfold MILLISECONDS_IN_HOUR. lia.
Defined.

(** X17: of two incomplete tasks with the same deadline and creation
    instant, the one with the higher priority weight has the higher or
    equal score. *)
Theorem score_monotone_in_priority :
  forall (nowD nowA : Z) (t1 t2 : Task),
    completed t1 = false ->
    completed t2 = false ->
    deadline t1 = deadline t2 ->
    createdAt t1 = createdAt t2 ->
    PRIORITY_WEIGHTS (priority t1) <= PRIORITY_WEIGHTS (priority t2) ->
    (calculateSmartScore nowD nowA t1 <= calculateSmartScore nowD nowA t2)%Q.
Proof.
  intros nowD nowA t1 t2 Hc1 Hc2 Hd Hcr Hw.
  rewrite (score_incomplete _ _ _ Hc1), (score_incomplete _ _ _ Hc2).
  rewrite Hd, Hcr. apply parseFloat4_le, toFixed4_mono.
  apply IZR_le in Hw. lra.
Qed.

Lemma score_monotone_in_priority_witness :
  (calculateSmartScore 1700000000000 1700000000000 scoredBelow
   <= calculateSmartScore 1700000000000 1700000000000
        (sample "5" "Renew pass" critical false 400 None))%Q.
Proof.
  apply (score_monotone_in_priority 1700000000000 1700000000000 scoredBelow
           (sample "5" "Renew pass" critical false 400 None));
    try reflexivity.
  simpl. lia.
Defined.

(** X18: of two incomplete tasks with the same priority and deadline, the
    one created earlier has the higher or equal score. *)
Theorem score_monotone_in_age :
  forall (nowD nowA : Z) (t1 t2 : Task),
    completed t1 = false ->
    completed t2 = false ->
    priority t1 = priority t2 ->
    deadline t1 = deadline t2 ->
    createdAt t1 <= createdAt t2 ->
    (calculateSmartScore nowD nowA t2 <= calculateSmartScore nowD nowA t1)%Q.
Proof.
  intros nowD nowA t1 t2 Hc1 Hc2 Hp Hd Hcr.
  rewrite (score_incomplete _ _ _ Hc1), (score_incomplete _ _ _ Hc2).
  rewrite Hp, Hd. apply parseFloat4_le, toFixed4_mono.
  pose proof (ageBoost_antitone nowA _ _ Hcr). lra.
Qed.

Lemma score_monotone_in_age_witness :
  (calculateSmartScore 1700000000000 1700000000000 (dueIn 1700086400000 24 0)
   <= calculateSmartScore 1700000000000 1700000000000
        (dueIn 1700000000000 48 0))%Q.
Proof.
  apply (score_monotone_in_age 1700000000000 1700000000000
           (dueIn 1700000000000 48 0) (dueIn 1700086400000 24 0));
    try reflexivity.
  simpl. unfold MILLISECONDS_IN_HOUR. lia.
Defined.

(** *** [find] and [findIndex] *)

Lemma findIndex_cases {A : Type} (p : A -> bool) (l : list A) :
  (Array_findIndex p l = -1 /\ Array_find p l = None /\
   (forall x, In x l -> p x = false)) \/
  (exists (n : nat) (x : A),
      Array_findIndex p l = Z.of_nat n /\ Array_find p l = Some x /\
      firstAt p l n x).
Proof.
  unfold Array_find, firstAt. induction l as [| a l IH]; simpl.
  - left. repeat split. intros x [].
  - destruct (p a) eqn:Hpa.
    + right. exists 0%nat, a. repeat split; try reflexivity; try assumption.
      intros m y Hm. lia.
    + destruct IH as [(Hi & Hf & Hall) | (n & x & Hi & Hf & Hn & Hpx & Hfirst)].
      * left. rewrite Hi. simpl. repeat split; try assumption.
        intros x [<- | Hx]; [exact Hpa | now apply Hall].
      * right. exists (S n), x. rewrite Hi.
        assert (Hlt : (Z.of_nat n <? 0) = false) by (apply Z.ltb_ge; lia).
        rewrite Hlt. repeat split; try assumption; try lia.
        intros [| m] y Hm Hy; simpl in Hy.
        -- now injection Hy as <-.
        -- apply (Hfirst m y); [lia | exact Hy].
Qed.

Lemma find_none_iff {A : Type} (p : A -> bool) (l : list A) :
  Array_find p l = None <-> (forall x, In x l -> p x = false).
Proof.
  unfold Array_find. split.
  - intros H x Hx. now apply (find_none p l H).
  - intros H. destruct (List.find p l) as [x |] eqn:Hf; [| reflexivity].
    apply find_some in Hf as [Hin Hpx]. rewrite (H x Hin) in Hpx. discriminate.
Qed.

Lemma find_insert_first {A : Type} (p : A -> bool) (l : list A) (n : nat)
    (x y : A) :
  firstAt p l n x -> p y = true -> Array_find p (<[n := y]> l) = Some y.
Proof.
  unfold Array_find, firstAt. revert n.
  induction l as [| a l IH]; intros n (Hn & Hpx & Hfirst) Hpy.
  - now rewrite lookup_nil in Hn.
  - destruct n as [| n]; simpl.
    + now rewrite Hpy.
    + rewrite (Hfirst 0%nat a ltac:(lia) eq_refl).
      apply IH; [| exact Hpy]. repeat split; try assumption.
      intros m z Hm Hz. apply (Hfirst (S m) z); [lia | exact Hz].
Qed.

Lemma find_insert_other {A : Type} (q : A -> bool) (l : list A) (n : nat)
    (x y : A) :
  l !! n = Some x -> q x = false -> q y = false ->
  Array_find q (<[n := y]> l) = Array_find q l.
Proof.
  unfold Array_find. revert n.
  induction l as [| a l IH]; intros n Hn Hqx Hqy.
  - reflexivity.
  - destruct n as [| n]; simpl in *.
    + injection Hn as ->. now rewrite Hqx, Hqy.
    + destruct (q a); [reflexivity | now apply IH].
Qed.

Lemma find_filter {A : Type} (p q : A -> bool) (l : list A) :
  Array_find q (List.filter p l) = Array_find (fun x => p x && q x) l.
Proof.
  unfold Array_find. induction l as [| a l IH]; simpl; [reflexivity |].
  destruct (p a); simpl; [destruct (q a) |]; now rewrite ?IH.
Qed.

Lemma find_ext {A : Type} (p q : A -> bool) (l : list A) :
  (forall x, p x = q x) -> Array_find p l = Array_find q l.
Proof.
  unfold Array_find. intros H. induction l as [| a l IH]; simpl; [reflexivity |].
  now rewrite H, IH.
Qed.

Lemma find_app_last {A : Type} (p : A -> bool) (l : list A) (x : A) :
  Array_find p (l ++ [x])%list =
  match Array_find p l with
  | Some y => Some y
  | None => if p x then Some x else None
  end.
Proof.
  unfold Array_find. induction l as [| a l IH]; simpl; [reflexivity |].
  destruct (p a); [reflexivity | exact IH].
Qed.

Lemma hasId_other (id id' : string) (t : Task) :
  id' <> id -> hasId id t = true -> hasId id' t = false.
Proof.
  unfold hasId. intros Hne Hid. apply String.eqb_eq in Hid.
  apply String.eqb_neq. congruence.
Qed.

(** *** Task service *)

Lemma getTaskById_find (taskId : string) (sto : option (list Task)) :
  taskService.getTaskById taskId sto =
  match Array_find (hasId taskId) (taskService.readAll sto) with
  | None => Err (String.append "Task " (String.append taskId " not found"))
  | Some task => Ok task
  end.
Proof. reflexivity. Qed.

(** X19: when the write goes through and no stored task has the new id,
    the task returned by [createTask] is the one [getTaskById] finds
    under that id afterwards; it carries the clock reading as creation
    and update instant and no score, and every other id is looked up as
    before. *)
Theorem createTask_then_getTaskById :
  forall (now : Z) (newId : string) (data : TaskData) (sto : option (list Task)),
    (forall t, In t (taskService.readAll sto) -> task_id t <> newId) ->
    let task := fst (taskService.createTask true now newId data sto) in
    let sto' := snd (taskService.createTask true now newId data sto) in
    taskService.getTaskById newId sto' = Ok task /\
    task_id task = newId /\ createdAt task = now /\ updatedAt task = now /\
    sortScore task = None /\
    (forall id', id' <> newId ->
       taskService.getTaskById id' sto' = taskService.getTaskById id' sto).
Proof.
  intros now newId data sto Hfresh task sto'.
  assert (Hnone : Array_find (hasId newId) (taskService.readAll sto) = None).
  { apply find_none_iff. intros t Ht. apply String.eqb_neq. now apply Hfresh. }
  repeat split.
  - rewrite getTaskById_find. unfold sto'. simpl taskService.readAll.
    rewrite find_app_last, Hnone. unfold hasId. simpl.
    now rewrite String.eqb_refl.
  - intros id' Hne. rewrite !getTaskById_find. unfold sto'.
    simpl taskService.readAll. rewrite find_app_last.
    destruct (Array_find (hasId id') (taskService.readAll sto)); [reflexivity |].
    unfold hasId. simpl. apply not_eq_sym, String.eqb_neq in Hne.
    now rewrite Hne.
Qed.

Lemma createTask_then_getTaskById_witness :
  let task := fst (taskService.createTask true 1700000000000 "7" reportData
                     (Some sampleTasks)) in
  let sto' := snd (taskService.createTask true 1700000000000 "7" reportData
                     (Some sampleTasks)) in
  taskService.getTaskById "7" sto' = Ok task /\
  task_id task = "7" /\ createdAt task = 1700000000000 /\
  updatedAt task = 1700000000000 /\ sortScore task = None /\
  (forall id', id' <> "7" ->
     taskService.getTaskById id' sto'
     = taskService.getTaskById id' (Some sampleTasks)).
Proof.
  apply (createTask_then_getTaskById 1700000000000 "7" reportData
           (Some sampleTasks)).
  intros t Ht. simpl in Ht.
  destruct Ht as [<- | [<- | [<- | [<- | []]]]]; discriminate.
Defined.

Lemma getTasksByUser_In (user : string) (sto : option (list Task)) (t : Task) :
  In t (taskService.getTasksByUser user sto) <->
  In t (taskService.readAll sto) /\ userId t = user.
Proof.
  unfold taskService.getTasksByUser. cbv zeta.
  rewrite In_Array_sort, filter_In, String.eqb_eq. reflexivity.
Qed.

Lemma fetchTasks_In (clock : nat -> Z) (user : string)
    (sto : option (list Task)) (state : TasksState) (t : Task) :
  In t (st_tasks (tasksSlice.reducer state (tasksSlice.fetchTasks clock user sto)))
  -> exists (nowD nowA : Z) (t0 : Task),
       t = withScore nowD nowA t0 /\ In t0 (taskService.readAll sto) /\
       userId t0 = user.
Proof.
  simpl. intros Ht. apply list_elem_of_In, elem_of_lookup_imap in Ht.
  destruct Ht as (i & t0 & -> & Hi).
  exists (clock (2 * i)%nat), (clock (2 * i + 1)%nat), t0.
  split; [reflexivity |]. apply getTasksByUser_In.
  apply list_elem_of_In. eapply list_elem_of_lookup_2. exact Hi.
Qed.

(** X20: when the write of [createTask] fails, [addTask] still settles
    as fulfilled: the storage is unchanged, no error is recorded, the new
    task is in the task list of the state, and it is no longer there
    after the next fetch.  The id of the new task, a fresh uuid, is
    assumed not to be the id of a stored task. *)
Theorem failed_write_add_is_lost_on_fetch :
  forall (now : Z) (newId : string) (nowD nowA : Z) (data : TaskData)
         (sto : option (list Task)) (state : TasksState) (clock : nat -> Z)
         (user : string),
    (forall t, In t (taskService.readAll sto) -> task_id t <> newId) ->
    let act := fst (tasksSlice.addTask false now newId nowD nowA data sto) in
    let sto' := snd (tasksSlice.addTask false now newId nowD nowA data sto) in
    let s1 := tasksSlice.reducer state act in
    let s2 := tasksSlice.reducer s1 (tasksSlice.fetchTasks clock user sto') in
    sto' = sto /\
    st_error s1 = st_error state /\
    (exists t, In t (st_tasks s1) /\ task_id t = newId) /\
    (forall t, In t (st_tasks s2) -> task_id t <> newId).
Proof.
  intros now newId nowD nowA data sto state clock user Hfresh act sto' s1 s2.
  repeat split.
  - eexists. split.
    + unfold s1, act. simpl. apply in_or_app. right. left. reflexivity.
    + reflexivity.
  - intros t Ht. unfold s2 in Ht.
    apply fetchTasks_In in Ht as (d & a & t0 & -> & Hin & _).
    simpl. now apply Hfresh.
Qed.

Lemma failed_write_add_is_lost_on_fetch_witness :
  let act := fst (tasksSlice.addTask false 1700000000000 "7" 1700000000001
                    1700000000002 reportData (Some sampleTasks)) in
  let sto' := snd (tasksSlice.addTask false 1700000000000 "7" 1700000000001
                     1700000000002 reportData (Some sampleTasks)) in
  let s1 := tasksSlice.reducer tasksSlice.initialState act in
  let s2 := tasksSlice.reducer s1
              (tasksSlice.fetchTasks (fun _ => 1700000000003) "u1" sto') in
  sto' = Some sampleTasks /\
  st_error s1 = st_error tasksSlice.initialState /\
  (exists t, In t (st_tasks s1) /\ task_id t = "7") /\
  (forall t, In t (st_tasks s2) -> task_id t <> "7").
Proof.
  apply (failed_write_add_is_lost_on_fetch 1700000000000 "7" 1700000000001
           1700000000002 reportData (Some sampleTasks) tasksSlice.initialState
           (fun _ => 1700000000003) "u1").
  intros t Ht. simpl in Ht.
  destruct Ht as [<- | [<- | [<- | [<- | []]]]]; discriminate.
Defined.

Lemma updateTask_missing_aux (ok : bool) (now : Z) (taskId : string)
    (updates : TaskPatch) (sto : option (list Task)) :
  (forall t, In t (taskService.readAll sto) -> task_id t <> taskId) ->
  taskService.updateTask ok now taskId updates sto =
  (Err (String.append "Task " (String.append taskId " not found")), sto).
Proof.
  intros Hmiss. unfold taskService.updateTask. cbv zeta.
  destruct (findIndex_cases (hasId taskId) (taskService.readAll sto))
    as [(Hi & _ & _) | (n & x & _ & _ & Hn & Hpx & _)].
  - unfold hasId in Hi. now rewrite Hi.
  - exfalso. apply String.eqb_eq in Hpx. apply (Hmiss x); [| exact Hpx].
    apply list_elem_of_In. eapply list_elem_of_lookup_2. exact Hn.
Qed.

(** X21: updating an id that no stored task has fails with the message
    "Task <id> not found" and leaves the storage as it is. *)
Theorem updateTask_missing :
  forall (ok : bool) (now : Z) (taskId : string) (updates : TaskPatch)
         (sto : option (list Task)),
    (forall t, In t (taskService.readAll sto) -> task_id t <> taskId) ->
    taskService.updateTask ok now taskId updates sto =
    (Err (String.append "Task " (String.append taskId " not found")), sto).
Proof.
  intros ok now taskId updates sto Hmiss. now apply updateTask_missing_aux.
Qed.

Lemma updateTask_missing_witness :
  taskService.updateTask true 1700000000000 "7" emptyPatch (Some sampleTasks) =
  (Err (String.append "Task " (String.append "7" " not found")),
   Some sampleTasks).
Proof.
  apply (updateTask_missing true 1700000000000 "7" emptyPatch
           (Some sampleTasks)).
  intros t Ht. simpl in Ht.
  destruct Ht as [<- | [<- | [<- | [<- | []]]]]; discriminate.
Defined.

(** X22: updating a stored task, with the write going through, returns
    the merged task and stores it under the same id.  The id is the
    requested one and the update instant is the clock reading, whatever
    the patch says; every other field is the value of the patch if it has
    one and the stored value otherwise.  The number of stored tasks is
    unchanged and every other id is looked up as before. *)
Theorem updateTask_then_getTaskById :
  forall (now : Z) (taskId : string) (updates : TaskPatch)
         (sto : option (list Task)) (old : Task),
    taskService.getTaskById taskId sto = Ok old ->
    let sto' := snd (taskService.updateTask true now taskId updates sto) in
    exists merged : Task,
      fst (taskService.updateTask true now taskId updates sto) = Ok merged /\
      taskService.getTaskById taskId sto' = Ok merged /\
      task_id merged = taskId /\ updatedAt merged = now /\
      userId merged = nullish (u_userId updates) (userId old) /\
      title merged = nullish (u_title updates) (title old) /\
      description merged = nullish (u_description updates) (description old) /\
      dateTime merged = nullish (u_dateTime updates) (dateTime old) /\
      deadline merged = nullish (u_deadline updates) (deadline old) /\
      priority merged = nullish (u_priority updates) (priority old) /\
      category merged = nullish (u_category updates) (category old) /\
      tags merged = nullish (u_tags updates) (tags old) /\
      completed merged = nullish (u_completed updates) (completed old) /\
      createdAt merged = nullish (u_createdAt updates) (createdAt old) /\
      sortScore merged = nullish (u_sortScore updates) (sortScore old) /\
      length (taskService.readAll sto') = length (taskService.readAll sto) /\
      (forall id', id' <> taskId ->
         taskService.getTaskById id' sto' = taskService.getTaskById id' sto).
Proof.
  intros now taskId updates sto old Hget sto'.
  rewrite getTaskById_find in Hget.
  destruct (findIndex_cases (hasId taskId) (taskService.readAll sto))
    as [(_ & Hf & _) | (n & x & Hi & Hf & Hfirst)];
    rewrite Hf in Hget; [discriminate |].
  injection Hget as ->. pose proof Hfirst as (Hn & Hpx & _).
  unfold sto', taskService.updateTask. cbv zeta.
  change (fun t : Task => String.eqb (task_id t) taskId) with (hasId taskId).
  rewrite Hi.
  assert (Hne : (Z.of_nat n =? -1) = false) by (apply Z.eqb_neq; lia).
  rewrite Hne, Nat2Z.id, Hn. simpl fst. simpl snd.
  eexists. split; [reflexivity |].
  repeat split.
  - rewrite getTaskById_find. simpl taskService.readAll.
    rewrite (find_insert_first _ _ _ _ _ Hfirst); [reflexivity |].
    unfold hasId. simpl. apply String.eqb_refl.
  - simpl taskService.readAll. apply length_insert.
  - intros id' Hid'. rewrite !getTaskById_find. simpl taskService.readAll.
    rewrite (find_insert_other _ _ _ _ _ Hn); [reflexivity | |].
    + now apply (hasId_other taskId).
    + unfold hasId. simpl. now apply String.eqb_neq, not_eq_sym.
Qed.

Lemma updateTask_then_getTaskById_witness :
  let updates :=
    {| u_id := Some "other"; u_userId := None; u_title := Some "Call the bank";
       u_description := None; u_dateTime := None; u_deadline := None;
       u_priority := None; u_category := None; u_tags := None;
       u_completed := Some true; u_createdAt := None; u_updatedAt := Some 5;
       u_sortScore := None |} in
  let sto' := snd (taskService.updateTask true 1700000000000 "2" updates
                     (Some sampleTasks)) in
  exists merged : Task,
    fst (taskService.updateTask true 1700000000000 "2" updates
           (Some sampleTasks)) = Ok merged /\
    taskService.getTaskById "2" sto' = Ok merged /\
    task_id merged = "2" /\ updatedAt merged = 1700000000000 /\
    userId merged = nullish (u_userId updates) (userId unscored) /\
    title merged = nullish (u_title updates) (title unscored) /\
    description merged = nullish (u_description updates) (description unscored) /\
    dateTime merged = nullish (u_dateTime updates) (dateTime unscored) /\
    deadline merged = nullish (u_deadline updates) (deadline unscored) /\
    priority merged = nullish (u_priority updates) (priority unscored) /\
    category merged = nullish (u_category updates) (category unscored) /\
    tags merged = nullish (u_tags updates) (tags unscored) /\
    completed merged = nullish (u_completed updates) (completed unscored) /\
    createdAt merged = nullish (u_createdAt updates) (createdAt unscored) /\
    sortScore merged = nullish (u_sortScore updates) (sortScore unscored) /\
    length (taskService.readAll sto') =
    length (taskService.readAll (Some sampleTasks)) /\
    (forall id', id' <> "2" ->
       taskService.getTaskById id' sto'
       = taskService.getTaskById id' (Some sampleTasks)).
Proof.
  intros updates.
  apply (updateTask_then_getTaskById 1700000000000 "2" updates
           (Some sampleTasks) unscored).
  reflexivity.
Defined.

(** X23: after [deleteTask] with the write going through, looking up the
    deleted id fails with "Task <id> not found", and every other id is
    looked up as before. *)
Theorem deleteTask_then_getTaskById :
  forall (taskId : string) (sto : option (list Task)),
    let sto' := taskService.deleteTask true taskId sto in
    taskService.getTaskById taskId sto' =
    Err (String.append "Task " (String.append taskId " not found")) /\
    (forall id', id' <> taskId ->
       taskService.getTaskById id' sto' = taskService.getTaskById id' sto).
Proof.
  intros taskId sto sto'. split.
  - rewrite getTaskById_find. simpl taskService.readAll.
    replace (Array_find _ _) with (@None Task); [reflexivity |].
    symmetry. apply find_none_iff. intros t Ht.
    apply filter_In in Ht as [_ Ht]. now apply negb_true_iff in Ht.
  - intros id' Hid'. rewrite !getTaskById_find. simpl taskService.readAll.
    rewrite find_filter.
    rewrite (find_ext _ (hasId id') (taskService.readAll sto)); [reflexivity |].
    intros t. destruct (hasId id' t) eqn:Hh; [| apply andb_false_r].
    rewrite andb_true_r. apply negb_true_iff.
    apply (hasId_other id'); [now apply not_eq_sym | exact Hh].
Qed.


(** X25: after [deleteAllByUser] with the write going through the user
    has no tasks, and every other user has the same tasks in the same
    order as before. *)
Theorem deleteAllByUser_then_getTasksByUser :
  forall (user : string) (sto : option (list Task)),
    let sto' := taskService.deleteAllByUser true user sto in
    taskService.getTasksByUser user sto' = [] /\
    (forall user', user' <> user ->
       taskService.getTasksByUser user' sto'
       = taskService.getTasksByUser user' sto).
Proof.
  intros user sto sto'. split.
  - unfold taskService.getTasksByUser, sto'. simpl taskService.readAll. cbv zeta.
    rewrite filter_fuse, filter_none; [reflexivity |].
    intros t _. now destruct (String.eqb (userId t) user).
  - intros user' Hne.
    unfold taskService.getTasksByUser, sto'. simpl taskService.readAll. cbv zeta.
    rewrite filter_fuse. f_equal. apply List.filter_ext. intros t.
    destruct (String.eqb_spec (userId t) user') as [-> | Hu];
      [| apply andb_false_r].
    rewrite andb_true_r. apply negb_true_iff. now apply String.eqb_neq.
Qed.

(** *** Statistics *)

Lemma filter_length_split {A : Type} (p : A -> bool) (l : list A) :
  (length (List.filter p l) + length (List.filter (fun x => negb (p x)) l)
   = length l)%nat.
Proof.
  induction l as [| x l IH]; simpl; [reflexivity |].
  destruct (p x); simpl; lia.
Qed.

Lemma filter_length_and {A : Type} (p q : A -> bool) (l : list A) :
  (length (List.filter (fun x => p x && q x) l) <= length (List.filter p l))%nat.
Proof.
  induction l as [| x l IH]; simpl; [lia |].
  destruct (p x); simpl; [destruct (q x); simpl |]; lia.
Qed.

Lemma rateInRange_table :
  forallb (fun n => forallb (fun c => rateInRange c n) (seq 0 (S n))) (seq 0 201)
  = true.
Proof. vm_compute. reflexivity. Qed.

Lemma rateInRange_upto (c n : nat) :
  (c <= n)%nat -> (n <= 200)%nat -> rateInRange c n = true.
Proof.
  intros Hc Hn. pose proof rateInRange_table as Htab.
  rewrite forallb_forall in Htab.
  assert (Hrow : forallb (fun c => rateInRange c n) (seq 0 (S n)) = true).
  { apply Htab. apply in_seq. lia. }
  rewrite forallb_forall in Hrow. apply Hrow. apply in_seq. lia.
Qed.

Lemma filter_length_all {A : Type} (p : A -> bool) (l : list A) :
  forallb p l = true -> length (List.filter p l) = length l.
Proof.
  induction l as [| x l IH]; simpl; [reflexivity |].
  destruct (p x); simpl; [| discriminate]. intros H. now rewrite IH.
Qed.

(** X26: in the statistics of a task list, [total] is the length of the
    list, the completed count lies between 0 and [total], [active] is the
    number of incomplete tasks, and [overdue] is the number of tasks that
    [isOverdue] flags at the same clock reading and lies between 0 and
    [active].  [completionRate] is 0 for the empty list; for a list of at
    most 200 tasks it is a whole number between 0 and 100, and it is 100
    when the list is not empty and every task is completed. *)
Theorem computeStats_invariants :
  forall (now : Z) (tasks : list Task),
    let s := computeStats now tasks in
    total s = Z.of_nat (length tasks) /\
    0 <= n_completed s <= total s /\
    active s =
    Z.of_nat (length (List.filter (fun t => negb (completed t)) tasks)) /\
    overdue s = Z.of_nat (length (List.filter (isOverdue now) tasks)) /\
    0 <= overdue s <= active s /\
    (tasks = [] -> completionRate s = 0%float) /\
    ((length tasks <= 200)%nat ->
     (exists k : Z,
         0 <= k <= 100 /\
         PrimFloat.eqb (completionRate s) (Number_of_Z k) = true) /\
     (tasks <> [] -> forallb completed tasks = true ->
      PrimFloat.eqb (completionRate s) 100 = true)).
Proof.
  intros now tasks s. subst s. unfold computeStats.
  cbn [active overdue n_completed total completionRate].
  pose proof (filter_length_split (fun t => completed t) tasks) as Hsplit.
  pose proof (filter_length_and (fun t => negb (completed t))
                (fun t => deadline t <? now) tasks) as Hover.
  cbv beta in Hsplit, Hover.
  split; [reflexivity |]. split; [lia |]. split; [lia |].
  split; [reflexivity |]. split; [lia |]. split.
  - intros ->. reflexivity.
  - intros Hlen.
    assert (Hc : (length (List.filter (fun t => completed t) tasks)
                  <= length tasks)%nat) by lia.
    pose proof (rateInRange_upto _ _ Hc Hlen) as Hr.
    unfold rateInRange in Hr. cbv zeta in Hr.
    apply andb_prop in Hr. destruct Hr as [Hr Hfull].
    apply andb_prop in Hr. destruct Hr as [Hr _].
    apply andb_prop in Hr. destruct Hr as [Hwhole _].
    split.
    + apply existsb_exists in Hwhole. destruct Hwhole as (k & Hk & Heq).
      apply in_seq in Hk. exists (Z.of_nat k). split; [lia | exact Heq].
    + intros Hne Hall.
      assert (Hl : length (List.filter (fun t => completed t) tasks)
                   = length tasks).
      { apply (filter_length_all (fun t => completed t)). exact Hall. }
      rewrite Hl in Hfull |- *.
      rewrite Nat.eqb_refl in Hfull.
      assert (Hpos : (0 <? length tasks)%nat = true).
      { apply Nat.ltb_lt. destruct tasks; [congruence | simpl; lia]. }
      rewrite Hpos in Hfull. exact Hfull.
Qed.

Lemma computeStats_invariants_witness :
  (exists k : Z,
      0 <= k <= 100 /\
      PrimFloat.eqb (completionRate (computeStats 150 fortyTasks)) (Number_of_Z k)
      = true) /\
  n_completed (computeStats 150 fortyTasks) = 23 /\
  total (computeStats 150 fortyTasks) = 40 /\
  overdue (computeStats 150 fortyTasks) = 0 /\
  completionRate (computeStats 150 fortyTasks) = 57%float.
Proof.
  split.
  - destruct (computeStats_invariants 150 fortyTasks)
      as (_ & _ & _ & _ & _ & _ & Hrate).
    apply Hrate. vm_compute. lia.
  - vm_compute. repeat split; reflexivity.
Defined.

(** *** Reducers and thunks of the task slice *)

Lemma withTasks_same (state : TasksState) :
  tasksSlice.withTasks state (st_tasks state) = state.
Proof. now destruct state. Qed.

Lemma replaceById_missing (tasks : list Task) (payload : Task) :
  (forall t, In t tasks -> task_id t <> task_id payload) ->
  tasksSlice.replaceById tasks payload = tasks.
Proof.
  intros Hmiss. unfold tasksSlice.replaceById. cbv zeta.
  destruct (findIndex_cases (hasId (task_id payload)) tasks)
    as [(Hi & _ & _) | (n & x & _ & _ & Hn & Hpx & _)].
  - unfold hasId in Hi. now rewrite Hi.
  - exfalso. apply String.eqb_eq in Hpx. apply (Hmiss x); [| exact Hpx].
    apply list_elem_of_In. eapply list_elem_of_lookup_2. exact Hn.
Qed.

Lemma replaceById_found (tasks : list Task) (payload : Task) (n : nat) (x : Task) :
  firstAt (hasId (task_id payload)) tasks n x ->
  tasksSlice.replaceById tasks payload = <[n := payload]> tasks.
Proof.
  intros Hfirst. unfold tasksSlice.replaceById. cbv zeta.
  destruct (findIndex_cases (hasId (task_id payload)) tasks)
    as [(_ & _ & Hall) | (m & y & Hi & _ & Hm)].
  - destruct Hfirst as (Hn & Hpx & _). rewrite Hall in Hpx; [discriminate |].
    apply list_elem_of_In. eapply list_elem_of_lookup_2. exact Hn.
  - assert (Hmn : m = n).
    { destruct Hfirst as (Hn & Hpx & Hlt), Hm as (Hm & Hpy & Hlt').
      destruct (Nat.lt_trichotomy m n) as [H | [H | H]]; [| exact H |].
      - rewrite (Hlt m y H Hm) in Hpy. discriminate.
      - rewrite (Hlt' n x H Hn) in Hpx. discriminate. }
    subst m. unfold hasId in Hi. rewrite Hi.
    assert (Hne : (Z.of_nat n =? -1) = false) by (apply Z.eqb_neq; lia).
    now rewrite Hne, Nat2Z.id.
Qed.

(** X27: the reducer of a fulfilled update keeps the length of the task
    list.  When no task of the state has the id of the payload the state
    is unchanged; otherwise the first task with that id is replaced, so
    that looking the id up gives the payload.  Every other id is looked
    up as before. *)
Theorem updateTask_fulfilled_replaces :
  forall (state : TasksState) (payload : Task),
    let s' := tasksSlice.reducer state (tasksSlice.updateTask_fulfilled payload) in
    length (st_tasks s') = length (st_tasks state) /\
    ((forall t, In t (st_tasks state) -> task_id t <> task_id payload) ->
     s' = state) /\
    ((exists t, In t (st_tasks state) /\ task_id t = task_id payload) ->
     Array_find (hasId (task_id payload)) (st_tasks s') = Some payload) /\
    (forall id', id' <> task_id payload ->
       Array_find (hasId id') (st_tasks s')
       = Array_find (hasId id') (st_tasks state)).
Proof.
  intros state payload s'. unfold s'. simpl.
  destruct (findIndex_cases (hasId (task_id payload)) (st_tasks state))
    as [(_ & _ & Hall) | (n & x & _ & _ & Hfirst)].
  - assert (Hmiss : forall t, In t (st_tasks state) ->
                      task_id t <> task_id payload)
      by (intros t Ht; apply String.eqb_neq; now apply Hall).
    rewrite (replaceById_missing _ _ Hmiss). repeat split.
    + intros _. apply withTasks_same.
    + intros (t & Ht & Hid). now apply Hmiss in Ht.
  - rewrite (replaceById_found _ _ _ _ Hfirst).
    pose proof Hfirst as (Hn & Hpx & _). repeat split.
    + apply length_insert.
    + intros Hmiss. exfalso. apply String.eqb_eq in Hpx.
      apply (Hmiss x); [| exact Hpx].
      apply list_elem_of_In. eapply list_elem_of_lookup_2. exact Hn.
    + intros _. apply (find_insert_first _ _ _ _ _ Hfirst).
      apply String.eqb_refl.
    + intros id' Hid'. apply (find_insert_other _ _ _ _ _ Hn).
      * now apply (hasId_other (task_id payload)).
      * now apply String.eqb_neq, not_eq_sym.
Qed.

Lemma updateTask_found (ok : bool) (now : Z) (taskId : string)
    (updates : TaskPatch) (sto : option (list Task)) (old : Task) :
  taskService.getTaskById taskId sto = Ok old ->
  exists (merged : Task) (sto' : option (list Task)),
    taskService.updateTask ok now taskId updates sto = (Ok merged, sto') /\
    task_id merged = taskId /\ updatedAt merged = now /\
    userId merged = nullish (u_userId updates) (userId old) /\
    title merged = nullish (u_title updates) (title old) /\
    description merged = nullish (u_description updates) (description old) /\
    dateTime merged = nullish (u_dateTime updates) (dateTime old) /\
    deadline merged = nullish (u_deadline updates) (deadline old) /\
    priority merged = nullish (u_priority updates) (priority old) /\
    category merged = nullish (u_category updates) (category old) /\
    tags merged = nullish (u_tags updates) (tags old) /\
    completed merged = nullish (u_completed updates) (completed old) /\
    createdAt merged = nullish (u_createdAt updates) (createdAt old) /\
    sortScore merged = nullish (u_sortScore updates) (sortScore old).
Proof.
  intros Hget. rewrite getTaskById_find in Hget.
  destruct (findIndex_cases (hasId taskId) (taskService.readAll sto))
    as [(_ & Hf & _) | (n & x & Hi & Hf & Hn & _)];
    rewrite Hf in Hget; [discriminate |].
  injection Hget as ->.
  unfold taskService.updateTask. cbv zeta.
  change (fun t : Task => String.eqb (task_id t) taskId) with (hasId taskId).
  rewrite Hi.
  assert (Hne : (Z.of_nat n =? -1) = false) by (apply Z.eqb_neq; lia).
  rewrite Hne, Nat2Z.id, Hn.
  eexists. eexists. split; [reflexivity |]. repeat split.
Qed.

(** X28: toggling a task that the state and the storage both hold
    settles as fulfilled, and afterwards the state holds under that id a
    task whose completion flag is the negation of the flag the state had.
    Its id is the toggled id, its update instant is the clock reading,
    its score is freshly computed (-1 when the task has become
    completed), and every other field (owner, title, description, start,
    deadline, priority, category, tags, creation instant) is that of the
    stored task. *)
Theorem toggle_flips_completed :
  forall (ok : bool) (now nowD nowA : Z) (taskId : string)
         (state : TasksState) (sto : option (list Task))
         (existing stored : Task),
    Array_find (hasId taskId) (st_tasks state) = Some existing ->
    taskService.getTaskById taskId sto = Ok stored ->
    let act :=
      fst (tasksSlice.toggleTaskComplete ok now nowD nowA taskId state sto) in
    let s' := tasksSlice.reducer state act in
    exists t' : Task,
      act = tasksSlice.toggleTaskComplete_fulfilled t' /\
      Array_find (hasId taskId) (st_tasks s') = Some t' /\
      completed t' = negb (completed existing) /\
      task_id t' = taskId /\
      userId t' = userId stored /\
      title t' = title stored /\
      description t' = description stored /\
      dateTime t' = dateTime stored /\
      deadline t' = deadline stored /\
      priority t' = priority stored /\
      category t' = category stored /\
      tags t' = tags stored /\
      createdAt t' = createdAt stored /\
      updatedAt t' = now /\
      sortScore t' = Some (calculateSmartScore nowD nowA t') /\
      (completed existing = false -> sortScore t' = Some (-1)%Q).
Proof.
  intros ok now nowD nowA taskId state sto existing stored Hstate Hsto act s'.
  unfold s', act, tasksSlice.toggleTaskComplete.
  change (fun t : Task => String.eqb (task_id t) taskId) with (hasId taskId).
  rewrite Hstate.
  match goal with
  | |- context [taskService.updateTask ok now taskId ?u sto] =>
      destruct (updateTask_found ok now taskId u sto stored Hsto)
        as (merged & sto' & Hupd & Hid & Hupdated & Huser & Htitle & Hdescr
            & Hstart & Hdeadline & Hpriority & Hcategory & Htags & Hcompleted
            & Hcreated & _)
  end.
  rewrite Hupd. simpl fst.
  simpl in Huser, Htitle, Hdescr, Hstart, Hdeadline, Hpriority, Hcategory,
    Htags, Hcompleted, Hcreated.
  exists (withScore nowD nowA merged). split; [reflexivity |].
  assert (Hfirst : exists n x,
             firstAt (hasId (task_id (withScore nowD nowA merged)))
               (st_tasks state) n x).
  { destruct (findIndex_cases (hasId taskId) (st_tasks state))
      as [(_ & Hf & _) | (n & x & _ & _ & Hfirst)].
    - rewrite Hf in Hstate. discriminate.
    - exists n, x. simpl. now rewrite Hid. }
  destruct Hfirst as (n & x & Hfirst).
  simpl st_tasks. rewrite (replaceById_found _ _ _ _ Hfirst).
  simpl in Hfirst. rewrite Hid in Hfirst.
  repeat split; try assumption.
  - apply (find_insert_first _ _ _ _ _ Hfirst).
    unfold hasId. simpl. rewrite Hid. apply String.eqb_refl.
  - intros Hfalse. simpl. unfold calculateSmartScore.
    now rewrite Hcompleted, Hfalse.
Qed.

Lemma toggle_flips_completed_witness :
  let state := tasksSlice.withTasks tasksSlice.initialState sampleTasks in
  let act :=
    fst (tasksSlice.toggleTaskComplete true 1700000000000 1700000000001
           1700000000002 "2" state (Some sampleTasks)) in
  let s' := tasksSlice.reducer state act in
  exists t' : Task,
    act = tasksSlice.toggleTaskComplete_fulfilled t' /\
    Array_find (hasId "2") (st_tasks s') = Some t' /\
    completed t' = negb (completed unscored) /\
    task_id t' = "2" /\
    userId t' = userId unscored /\
    title t' = title unscored /\
    description t' = description unscored /\
    dateTime t' = dateTime unscored /\
    deadline t' = deadline unscored /\
    priority t' = priority unscored /\
    category t' = category unscored /\
    tags t' = tags unscored /\
    createdAt t' = createdAt unscored /\
    updatedAt t' = 1700000000000 /\
    sortScore t' = Some (calculateSmartScore 1700000000001 1700000000002 t') /\
    (completed unscored = false -> sortScore t' = Some (-1)%Q).
Proof.
  intros state.
  apply (toggle_flips_completed true 1700000000000 1700000000001
           1700000000002 "2" state (Some sampleTasks) unscored unscored).
  - reflexivity.
  - reflexivity.
Defined.

(** X29: toggling an id that no task of the state has is rejected with
    "Task not found" without touching the storage.  Toggling an id that
    the state has and the storage does not is rejected with
    "Task <id> not found", the storage is unchanged, and in both cases
    the reducer records the message and leaves the task list as it is. *)
Theorem toggle_unknown_task :
  forall (ok : bool) (now nowD nowA : Z) (taskId : string)
         (state : TasksState) (sto : option (list Task)),
    let result := tasksSlice.toggleTaskComplete ok now nowD nowA taskId state sto in
    let s' := tasksSlice.reducer state (fst result) in
    (Array_find (hasId taskId) (st_tasks state) = None ->
     result = (tasksSlice.toggleTaskComplete_rejected (Some "Task not found"), sto)
     /\ st_tasks s' = st_tasks state
     /\ st_error s' = Some "Task not found") /\
    (Array_find (hasId taskId) (st_tasks state) <> None ->
     (forall t, In t (taskService.readAll sto) -> task_id t <> taskId) ->
     result =
     (tasksSlice.toggleTaskComplete_rejected
        (Some (String.append "Task " (String.append taskId " not found"))), sto)
     /\ st_tasks s' = st_tasks state
     /\ st_error s' =
        Some (String.append "Task " (String.append taskId " not found"))).
Proof.
  intros ok now nowD nowA taskId state sto result s'.
  unfold s', result, tasksSlice.toggleTaskComplete.
  change (fun t : Task => String.eqb (task_id t) taskId) with (hasId taskId).
  split.
  - intros Hnone. rewrite Hnone. repeat split.
  - intros Hsome Hmiss.
    destruct (Array_find (hasId taskId) (st_tasks state)) as [existing |];
      [| contradiction].
    match goal with
    | |- context [taskService.updateTask ok now taskId ?u sto] =>
        rewrite (updateTask_missing_aux ok now taskId u sto Hmiss)
    end.
    repeat split.
Qed.

